(** * DeepSleep: the host-side driver of the deep-sleep companion chip

    A shallow embedding of [deepsleep/deepsleep.py].  The driver is a Python
    class whose methods talk to the chip over a one-wire UART and keep one
    piece of state of their own, the clock calibration factor.

    - Python integers are [Z]; [&], [|], [~], [>>] are [Z.land], [Z.lor],
      [Z.lnot], [Z.shiftr].
    - A Python number is an integer or a float ([pynum]).  Floats are IEEE
      754 binary floats ([spec_float]) of a format given by [prec] and
      [emax]: 53 and 1024 for doubles, 24 and 128 for singles.  Every float
      operation rounds to nearest, ties to even; a float literal is the
      float nearest to the decimal written; an integer that meets a float
      is converted to the nearest float, and the quotient of two integers
      is the float nearest to it.  What cannot be done raises:
      [ZeroDivisionError], [OverflowError], and [ValueError] for [int] of
      a NaN.
    - The calibration factor is kept as the fraction line 107 divides,
      numerator over [EXP_RTC_PERIOD]; the range check of line 110 is
      decided on the fraction, and the fraction is divided out in the float
      format where line 173 multiplies it.
    - A method is a function from the state (object fields and platform) to
      an outcome and a new state; a raised exception is an outcome, and the
      state reached when it was raised is kept.
    - The platform ([machine.UART], [pycom.pulses_get], [gc.collect]) is a
      trace of the calls made on it, together with the answers it will give
      to the successive [read] and [pulses_get] calls. *)

From Stdlib Require Import ZArith QArith Qround List String Bool Lia Lqa.
From Stdlib Require Import Floats.SpecFloat.
Import ListNotations.

Local Open Scope Z_scope.

(** ** Outcomes and exceptions *)

Inductive exn : Type :=
| ValueError (msg : string)
| IndexError
| TypeError
| ZeroDivisionError
| OverflowError.

Inductive outcome (A : Type) : Type :=
| Val (a : A)
| Exc (e : exn).

Arguments Val {A} a.
Arguments Exc {A} e.

Definition obind {A B : Type} (o : outcome A) (k : A -> outcome B) : outcome B :=
  match o with
  | Val a => k a
  | Exc e => Exc e
  end.

(** ** Module-level constants *)

(** [0b1010] in the source. *)
Definition PIN_MASK : Z := 0xA.
Definition COMM_PIN : string := "P10".

Definition PIN_WAKE : Z := 0.
Definition TIMER_WAKE : Z := Z.shiftl 1 4.
Definition POWER_ON_WAKE : Z := Z.shiftl 1 5.

(** ** Class constants *)

Definition WPUA_ADDR : Z := 0x09.
Definition OPTION_REG_ADDR : Z := 0x0E.
Definition IOCAP_ADDR : Z := 0x1A.
Definition IOCAN_ADDR : Z := 0x1B.

Definition WAKE_STATUS_ADDR : Z := 0x40.
Definition MIN_BAT_ADDR : Z := 0x41.
Definition SLEEP_TIME_ADDR : Z := 0x42.
Definition CTRL_0_ADDR : Z := 0x45.

Definition EXP_RTC_PERIOD : Z := 7000.

(** ** Pin masks *)

(** The [pins] argument of the pin operations: [type(pins) is str] selects
    the single-identifier branch, anything else is iterated over. *)
Inductive pins_arg : Type :=
| PinStr (pin : string)
| PinSeq (pins : list string).

Definition invalid_pin_msg (pin : string) : string :=
  ("Invalid Pin specified: " ++ pin)%string.

Definition _add_to_pin_mask (mask : Z) (pin : string) : outcome Z :=
  if (pin =? "P10")%string || (pin =? "G17")%string then
    Val (Z.lor mask 0x01)
  else if (pin =? "P17")%string || (pin =? "G31")%string then
    Val (Z.lor mask 0x02)
  else if (pin =? "P18")%string || (pin =? "G30")%string then
    Val (Z.lor mask 0x08)
  else
    Exc (ValueError (invalid_pin_msg pin)).

(** The [for pin in pins] loop, threading [mask]; the first exception
    leaves the loop. *)
Fixpoint add_pins (mask : Z) (pins : list string) : outcome Z :=
  match pins with
  | [] => Val mask
  | pin :: rest => obind (_add_to_pin_mask mask pin) (fun mask' => add_pins mask' rest)
  end.

Definition _create_pin_mask (pins : pins_arg) : outcome Z :=
  let mask := 0 in
  obind (match pins with
         | PinStr pin => _add_to_pin_mask mask pin
         | PinSeq l => add_pins mask l
         end)
        (fun mask => Val (Z.land mask PIN_MASK)).

(** ** The platform and the driver object *)

(** One call made on the platform.  [EvRead None] is [uart.read()],
    [EvRead (Some n)] is [uart.read(n)]; [EvUartInit] is the construction
    [UART(1, baudrate=10000, pins=(COMM_PIN, ))]. *)
Inductive event : Type :=
| EvUartInit (baudrate : Z) (pin : string)
| EvUartDeinit
| EvBreak (bits : Z)
| EvWrite (data : list Z)
| EvRead (nbytes : option Z)
| EvPulsesGet (pin : string) (timeout : Z)
| EvGcCollect.

(** [trace] lists the calls made so far, oldest first.  [rx] holds what the
    successive [uart.read] calls will return ([None] when nothing arrived),
    [captures] what the successive [pycom.pulses_get] calls will return: a
    list of [(level, duration)] pairs.  [clk_cal_factor] and [_pulses] are
    the attributes of the [DeepSleep] object. *)
Record state : Type := mkState {
  clk_cal_factor : Q;
  _pulses : list (Z * Z);
  trace : list event;
  rx : list (option (list Z));
  captures : list (list (Z * Z))
}.

Definition M (A : Type) : Type := state -> outcome A * state.

Definition ret {A : Type} (a : A) : M A := fun s => (Val a, s).

Definition raise {A : Type} (e : exn) : M A := fun s => (Exc e, s).

Definition bind {A B : Type} (m : M A) (k : A -> M B) : M B :=
  fun s =>
    match m s with
    | (Val a, s') => k a s'
    | (Exc e, s') => (Exc e, s')
    end.

Definition lift {A : Type} (o : outcome A) : M A := fun s => (o, s).

(** [try: body except: handler], for a handler that catches everything. *)
Definition try_except (body handler : M unit) : M unit :=
  fun s =>
    match body s with
    | (Val _, s') => (Val tt, s')
    | (Exc _, s') => handler s'
    end.

Declare Scope py_scope.
Delimit Scope py_scope with py.
Notation "x <- m ;; k" := (bind m (fun x => k))
  (at level 61, m at next level, right associativity) : py_scope.
Notation "m ;;; k" := (bind m (fun _ => k))
  (at level 61, right associativity) : py_scope.
Local Open Scope py_scope.

Definition emit (e : event) : M unit :=
  fun s => (Val tt, mkState (clk_cal_factor s) (_pulses s) (trace s ++ [e])
                            (rx s) (captures s)).

Definition set_clk_cal_factor (f : Q) : M unit :=
  fun s => (Val tt, mkState f (_pulses s) (trace s) (rx s) (captures s)).

Definition set_pulses (p : list (Z * Z)) : M unit :=
  fun s => (Val tt, mkState (clk_cal_factor s) p (trace s) (rx s) (captures s)).

Definition get_clk_cal_factor : M Q := fun s => (Val (clk_cal_factor s), s).

Definition get_pulses : M (list (Z * Z)) := fun s => (Val (_pulses s), s).

(** *** Platform calls *)

Definition is_byte (b : Z) : bool := (0 <=? b) && (b <? 256).

(** [bytes(data)] raises [ValueError] on an element outside [0, 255]. *)
Definition py_bytes (data : list Z) : outcome (list Z) :=
  if forallb is_byte data then Val data
  else Exc (ValueError "bytes must be in range(0, 256)").

Definition next_rx (s : state) : option (list Z) * list (option (list Z)) :=
  match rx s with
  | [] => (None, [])
  | r :: rest => (r, rest)
  end.

(** [uart.read()] returns whatever arrived; [uart.read(n)] at most [n]
    bytes of it. *)
Definition uart_read (nbytes : option Z) : M (option (list Z)) :=
  fun s =>
    let (r, rest) := next_rx s in
    let r' := match nbytes with
              | None => r
              | Some n => option_map (firstn (Z.to_nat n)) r
              end in
    (Val r', mkState (clk_cal_factor s) (_pulses s) (trace s ++ [EvRead nbytes])
                     rest (captures s)).

Definition uart_write (data : list Z) : M unit := emit (EvWrite data).

Definition uart_sendbreak (bits : Z) : M unit := emit (EvBreak bits).

Definition uart_deinit : M unit := emit EvUartDeinit.

Definition uart_init (baudrate : Z) (pin : string) : M unit :=
  emit (EvUartInit baudrate pin).

Definition pulses_get (pin : string) (timeout : Z) : M (list (Z * Z)) :=
  fun s =>
    let (p, rest) := match captures s with
                     | [] => ([], [])
                     | p :: rest => (p, rest)
                     end in
    (Val p, mkState (clk_cal_factor s) (_pulses s)
                    (trace s ++ [EvPulsesGet pin timeout]) (rx s) rest).

Definition gc_collect : M unit := emit EvGcCollect.

(** ** Transport *)

Definition _send (data : list Z) : M unit :=
  bs <- lift (py_bytes data) ;;
  uart_write bs.

Definition _start : M unit :=
  uart_sendbreak 20 ;;;
  _send [0x55].

(** [expected] is [None] when the caller leaves the default.  The result is
    [None] both when [uart.read] returns Python's [None] and when the
    function falls off its end without reading ([expected <= 0]). *)
Definition _magic (address and_val or_val xor_val : Z) (expected : option Z)
  : M (option (list Z)) :=
  _start ;;;
  _send [address; Z.land and_val 0xFF; Z.land or_val 0xFF; Z.land xor_val 0xFF] ;;;
  match expected with
  | None => uart_read None
  | Some n => if 0 <? n then uart_read (Some n) else ret None
  end.

(** ** Register operations *)

Definition poke (address value : Z) : M unit :=
  _magic address 0 value 0 None ;;; ret tt.

(** Subscripting the reply: [None[6]] is a [TypeError], a reply of fewer
    than seven bytes an [IndexError]. *)
Definition subscript_reply (r : option (list Z)) (i : nat) : outcome Z :=
  match r with
  | None => Exc TypeError
  | Some bs => match nth_error bs i with
               | Some b => Val b
               | None => Exc IndexError
               end
  end.

Definition peek (address : Z) : M Z :=
  r <- _magic address 0xFF 0 0 None ;;
  lift (subscript_reply r 6).

Definition setbits (address mask : Z) : M unit :=
  _magic address 0xFF mask 0 None ;;; ret tt.

Definition clearbits (address mask : Z) : M unit :=
  _magic address (Z.lnot mask) 0 0 None ;;; ret tt.

Definition togglebits (address mask : Z) : M unit :=
  _magic address 0xFF 0 mask None ;;; ret tt.

(** ** Python arithmetic on numbers *)

(** [a / b]: true division, [ZeroDivisionError] on a zero divisor. *)
Definition py_truediv (a b : Q) : outcome Q :=
  if Qeq_bool b 0 then Exc ZeroDivisionError else Val (a / b)%Q.

(** [a < b] and [a > b]. *)
Definition py_lt (a b : Q) : bool := negb (Qle_bool b a).
Definition py_gt (a b : Q) : bool := py_lt b a.

(** ** Python numbers *)

(** A number is an [int] or a [float]. *)
Inductive pynum : Type :=
| PyInt (z : Z)
| PyFloat (x : spec_float).

Section FloatFormat.

(** The float format of the platform: [prec] bits of precision and
    exponents below [emax]. *)
Variables prec emax : Z.

(** An integer as the real number it is, before any rounding: a mantissa
    with exponent 0. *)
Definition exact_int (z : Z) : spec_float :=
  match z with
  | Z0 => S754_zero false
  | Zpos p => S754_finite false p 0
  | Zneg p => S754_finite true p 0
  end.

(** The conversion of an [int] operand that meets a [float]: the nearest
    float, [OverflowError] when the integer is too large for one. *)
Definition float_of_int (z : Z) : outcome spec_float :=
  match binary_normalize prec emax z 0 false with
  | S754_infinity _ => Exc OverflowError
  | x => Val x
  end.

(** The float literal with digits [m] and [k] decimals, as in [1.024] for
    [float_literal 1024 3]: the float nearest to [m / 10 ^ k]. *)
Definition float_literal (m k : Z) : spec_float :=
  SFdiv prec emax (exact_int m) (exact_int (10 ^ k)).

Definition is_zero (x : spec_float) : bool :=
  match x with
  | S754_zero _ => true
  | _ => false
  end.

(** [x / y] on two floats. *)
Definition float_div (x y : spec_float) : outcome pynum :=
  if is_zero y then Exc ZeroDivisionError
  else Val (PyFloat (SFdiv prec emax x y)).

(** [a / b].  Two integers give the float nearest to their quotient, and
    [OverflowError] when that is too large for a float; an integer that
    meets a float is converted first. *)
Definition py_div (a b : pynum) : outcome pynum :=
  match a, b with
  | PyInt x, PyInt y =>
      if y =? 0 then Exc ZeroDivisionError
      else match SFdiv prec emax (exact_int x) (exact_int y) with
           | S754_infinity _ => Exc OverflowError
           | q => Val (PyFloat q)
           end
  | PyInt x, PyFloat y => obind (float_of_int x) (fun fx => float_div fx y)
  | PyFloat x, PyInt y => obind (float_of_int y) (fun fy => float_div x fy)
  | PyFloat x, PyFloat y => float_div x y
  end.

(** [a * b] *)
Definition py_mul (a b : pynum) : outcome pynum :=
  match a, b with
  | PyInt x, PyInt y => Val (PyInt (x * y))
  | PyInt x, PyFloat y =>
      obind (float_of_int x) (fun fx => Val (PyFloat (SFmul prec emax fx y)))
  | PyFloat x, PyInt y =>
      obind (float_of_int y) (fun fy => Val (PyFloat (SFmul prec emax x fy)))
  | PyFloat x, PyFloat y => Val (PyFloat (SFmul prec emax x y))
  end.

(** [a + b] *)
Definition py_add (a b : pynum) : outcome pynum :=
  match a, b with
  | PyInt x, PyInt y => Val (PyInt (x + y))
  | PyInt x, PyFloat y =>
      obind (float_of_int x) (fun fx => Val (PyFloat (SFadd prec emax fx y)))
  | PyFloat x, PyInt y =>
      obind (float_of_int y) (fun fy => Val (PyFloat (SFadd prec emax x fy)))
  | PyFloat x, PyFloat y => Val (PyFloat (SFadd prec emax x y))
  end.

(** The fraction [f] divided out: the float that line 107 computes from
    the same numerator and denominator. *)
Definition factor_number (f : Q) : pynum :=
  PyFloat (SFdiv prec emax (exact_int (Qnum f)) (exact_int (Zpos (Qden f)))).

End FloatFormat.

(** [int(a)]: an integer as it is, a float truncated toward zero;
    [ValueError] for a NaN and [OverflowError] for an infinity. *)
Definition py_int (a : pynum) : outcome Z :=
  match a with
  | PyInt z => Val z
  | PyFloat S754_nan => Exc (ValueError "cannot convert float NaN to integer")
  | PyFloat (S754_infinity _) => Exc OverflowError
  | PyFloat (S754_zero _) => Val 0
  | PyFloat (S754_finite s m e) =>
      let magnitude :=
        match e with
        | Zneg p => Z.shiftr (Zpos m) (Zpos p)
        | _ => Z.shiftl (Zpos m) e
        end in
      Val (if s then - magnitude else magnitude)
  end.

(** ** Clock calibration *)

(** [pulses[i][1]] *)
Definition pulse_duration (pulses : list (Z * Z)) (i : nat) : outcome Z :=
  match nth_error pulses i with
  | Some p => Val (snd p)
  | None => Exc IndexError
  end.

(** The body of the [try] block of [calibrate]. *)
Definition measure_factor : M unit :=
  pulses <- get_pulses ;;
  hi <- lift (pulse_duration pulses 4) ;;
  lo <- lift (pulse_duration pulses 1) ;;
  f <- lift (py_truediv (inject_Z (hi - lo)) (inject_Z EXP_RTC_PERIOD)) ;;
  set_clk_cal_factor f.

(** The condition of the final [if] of [calibrate]. *)
Definition out_of_range (f : Q) : bool := py_gt f 1.25 || py_lt f 0.75.

Definition calibrate : M unit :=
  _magic CTRL_0_ADDR 0xFF (Z.shiftl 1 2) 0 (Some 0) ;;;
  uart_deinit ;;;
  pulses <- pulses_get COMM_PIN 50 ;;
  set_pulses pulses ;;;
  uart_init 10000 COMM_PIN ;;;
  try_except measure_factor (ret tt) ;;;
  f <- get_clk_cal_factor ;;
  if out_of_range f then set_clk_cal_factor 1 else ret tt.

(** ** Pin configuration *)

Definition enable_auto_poweroff : M unit :=
  setbits CTRL_0_ADDR (Z.shiftl 1 1).

Definition enable_pullups (pins : pins_arg) : M unit :=
  mask <- lift (_create_pin_mask pins) ;;
  setbits WPUA_ADDR mask.

Definition disable_pullups (pins : pins_arg) : M unit :=
  mask <- lift (_create_pin_mask pins) ;;
  clearbits WPUA_ADDR mask.

Definition enable_wake_on_raise (pins : pins_arg) : M unit :=
  mask <- lift (_create_pin_mask pins) ;;
  setbits IOCAP_ADDR mask.

Definition disable_wake_on_raise (pins : pins_arg) : M unit :=
  mask <- lift (_create_pin_mask pins) ;;
  clearbits IOCAP_ADDR mask.

Definition enable_wake_on_fall (pins : pins_arg) : M unit :=
  mask <- lift (_create_pin_mask pins) ;;
  setbits IOCAN_ADDR mask.

Definition disable_wake_on_fall (pins : pins_arg) : M unit :=
  mask <- lift (_create_pin_mask pins) ;;
  clearbits IOCAN_ADDR mask.

(** ** Wake status *)

(** The dictionary returned by [get_wake_status], one field per key. *)
Record wake_status : Type := mkWakeStatus {
  wake : Z;
  P10 : Z;
  P17 : Z;
  P18 : Z
}.

Definition decode_wake_status (wake_r : Z) : wake_status :=
  {| wake := Z.land wake_r (Z.lor TIMER_WAKE POWER_ON_WAKE);
     P10 := Z.land wake_r 0x01;
     P17 := Z.shiftr (Z.land wake_r 0x02) 1;
     P18 := Z.shiftr (Z.land wake_r 0x08) 3 |}.

Definition get_wake_status : M wake_status :=
  wake_r <- peek WAKE_STATUS_ADDR ;;
  ret (decode_wake_status wake_r).

(** ** Battery limit *)

(** The right-hand side of line 156,
    [int(((256 * 2.048) + (value / 2)) / value)], operands evaluated from
    left to right. *)
Definition min_voltage_register (prec emax : Z) (value : pynum) : outcome Z :=
  obind (py_mul prec emax (PyInt 256) (PyFloat (float_literal prec emax 2048 3)))
        (fun scale =>
  obind (py_div prec emax value (PyInt 2)) (fun half =>
  obind (py_add prec emax scale half) (fun sum =>
  obind (py_div prec emax sum value) (fun quotient =>
  py_int quotient)))).

Definition set_min_voltage_limit (prec emax : Z) (value : pynum) : M unit :=
  value <- lift (min_voltage_register prec emax value) ;;
  poke MIN_BAT_ADDR value.

(** ** Going to sleep *)

(** The right-hand side of line 173,
    [int((seconds / (1.024 * self.clk_cal_factor)) + 0.5)], with [f] the
    factor held. *)
Definition sleep_ticks (prec emax : Z) (seconds : pynum) (f : Q) : outcome Z :=
  obind (py_mul prec emax (PyFloat (float_literal prec emax 1024 3))
                (factor_number prec emax f))
        (fun scale =>
  obind (py_div prec emax seconds scale) (fun quotient =>
  obind (py_add prec emax quotient (PyFloat (float_literal prec emax 5 1)))
        (fun sum =>
  py_int sum))).

(** One pass through the body of the [while True] loop; the result is the
    new value of the variable [seconds].  The assignment of line 173 is
    outside the [try] block, so what it raises leaves the loop. *)
Definition go_to_sleep_iter (prec emax : Z) (seconds : pynum) : M Z :=
  try_except calibrate (ret tt) ;;;
  f <- get_clk_cal_factor ;;
  seconds <- lift (sleep_ticks prec emax seconds f) ;;
  poke SLEEP_TIME_ADDR (Z.land (Z.shiftr seconds 16) 0xFF) ;;;
  poke (SLEEP_TIME_ADDR + 1) (Z.land (Z.shiftr seconds 8) 0xFF) ;;;
  poke (SLEEP_TIME_ADDR + 2) (Z.land seconds 0xFF) ;;;
  setbits CTRL_0_ADDR (Z.shiftl 1 0) ;;;
  ret seconds.

(** The loop has no exit of its own: it runs until the chip cuts the power
    or an exception leaves it.  [go_to_sleep_loop n] is its first [n]
    passes, and returns the value [seconds] holds after them. *)
Fixpoint go_to_sleep_loop (prec emax : Z) (n : nat) (seconds : pynum) : M pynum :=
  match n with
  | O => ret seconds
  | S n' =>
      seconds' <- go_to_sleep_iter prec emax seconds ;;
      go_to_sleep_loop prec emax n' (PyInt seconds')
  end.

Definition go_to_sleep (prec emax : Z) (n : nat) (seconds : pynum) : M pynum :=
  gc_collect ;;;
  go_to_sleep_loop prec emax n seconds.

Definition hw_reset : M unit :=
  setbits CTRL_0_ADDR (Z.shiftl 1 4).

(** The driver as [__init__] leaves it, on a platform that will deliver
    [rx0] and [captures0]. *)
Definition init_state (rx0 : list (option (list Z))) (captures0 : list (list (Z * Z)))
  : state :=
  mkState 1 [] [] rx0 captures0.

Definition __init__ : M unit :=
  uart_init 10000 COMM_PIN ;;;
  set_clk_cal_factor 1 ;;;
  uart_read None ;;;
  clearbits OPTION_REG_ADDR (Z.shiftl 1 7).

(** * Vocabulary of the statements *)

(** The three calls every command starts with: the break, the
    synchronisation byte and the four-byte frame. *)
Definition command (address and_val or_val xor_val : Z) : list event :=
  [EvBreak 20; EvWrite [0x55]; EvWrite [address; and_val; or_val; xor_val]].

Definition add_trace (s : state) (evs : list event) : state :=
  mkState (clk_cal_factor s) (_pulses s) (trace s ++ evs) (rx s) (captures s).

(** What is done after the frame went out. *)
Definition read_reply (expected : option Z) : M (option (list Z)) :=
  match expected with
  | None => uart_read None
  | Some n => if 0 <? n then uart_read (Some n) else ret None
  end.

(** The identifiers [_add_to_pin_mask] accepts. *)
Definition valid_pins : list string := ["P10"; "G17"; "P17"; "G31"; "P18"; "G30"]%string.

(** The bit position that goes with each identifier: 0 for P10/G17, 1 for
    P17/G31, 3 for P18/G30. *)
Definition pin_position (pin : string) : option Z :=
  if (pin =? "P10")%string || (pin =? "G17")%string then Some 0
  else if (pin =? "P17")%string || (pin =? "G31")%string then Some 1
  else if (pin =? "P18")%string || (pin =? "G30")%string then Some 3
  else None.

Definition pin_bit (pin : string) : Z :=
  match pin_position pin with
  | Some k => Z.shiftl 1 k
  | None => 0
  end.

(** The identifiers an argument stands for. *)
Definition pin_ids (pins : pins_arg) : list string :=
  match pins with
  | PinStr pin => [pin]
  | PinSeq l => l
  end.

(** The OR of one bit per identifier. *)
Definition or_of_pins (l : list string) : Z :=
  fold_right (fun pin acc => Z.lor (pin_bit pin) acc) 0 l.

(** The pulse list the next [pulses_get] call returns. *)
Definition captured (s : state) : list (Z * Z) := hd [] (captures s).

(** The value [clk_cal_factor] holds when the [try] block is left. *)
Definition candidate_factor (prior : Q) (pulses : list (Z * Z)) : Q :=
  match nth_error pulses 4, nth_error pulses 1 with
  | Some hi, Some lo => (inject_Z (snd hi - snd lo) / inject_Z EXP_RTC_PERIOD)%Q
  | _, _ => prior
  end.

Definition accept_factor (f : Q) : Q := if out_of_range f then 1%Q else f.

Definition calibrate_events : list event :=
  command CTRL_0_ADDR 0xFF 0x04 0x00 ++
  [EvUartDeinit; EvPulsesGet COMM_PIN 50; EvUartInit 10000 COMM_PIN].

(** The calls of the three pokes and of the final [setbits]. *)
Definition sleep_events (ticks : Z) : list event :=
  command SLEEP_TIME_ADDR 0x00 (Z.land (Z.shiftr ticks 16) 0xFF) 0x00 ++ [EvRead None] ++
  command (SLEEP_TIME_ADDR + 1) 0x00 (Z.land (Z.shiftr ticks 8) 0xFF) 0x00 ++ [EvRead None] ++
  command (SLEEP_TIME_ADDR + 2) 0x00 (Z.land ticks 0xFF) 0x00 ++ [EvRead None] ++
  command CTRL_0_ADDR 0xFF 0x01 0x00 ++ [EvRead None].

(** The factor [calibrate] leaves when started in [s]. *)
Definition held_factor (s : state) : Q :=
  accept_factor (candidate_factor (clk_cal_factor s) (captured s)).

(** An event that puts nothing on the line. *)
Definition quiet (e : event) : bool :=
  match e with
  | EvBreak _ | EvWrite _ => false
  | _ => true
  end.

(** A stretch of trace in which the line is only ever driven by whole
    commands: a break of 20 bits, the synchronisation byte, and then a
    frame of four bytes, or no frame when [bytes] refused it. *)
Inductive framed : list event -> Prop :=
| framed_nil : framed []
| framed_quiet (e : event) (tr : list event) :
    quiet e = true -> framed tr -> framed (e :: tr)
| framed_command (a b c d : Z) (tr : list event) :
    forallb is_byte [a; b; c; d] = true ->
    framed tr ->
    framed (EvBreak 20 :: EvWrite [0x55] :: EvWrite [a; b; c; d] :: tr)
| framed_refused (tr : list event) :
    framed tr -> framed (EvBreak 20 :: EvWrite [0x55] :: tr).

(** [m] keeps [R] when [R] relates the state it is started in to the state
    it leaves, whether it returns or raises. *)
Definition keeps {A : Type} (R : state -> state -> Prop) (m : M A) : Prop :=
  forall s, R s (snd (m s)).

(** The trace grew by whole commands. *)
Definition adds_framed (s s' : state) : Prop :=
  exists tr, trace s' = trace s ++ tr /\ framed tr.

(** Nothing that calibration owns was touched. *)
Definition same_calibration (s s' : state) : Prop :=
  clk_cal_factor s' = clk_cal_factor s /\
  _pulses s' = _pulses s /\
  captures s' = captures s.

(** The expansion-board name (G17, G31, G30) of a pin rewritten to its
    module name (P10, P17, P18); any other string is left as it is. *)
Definition module_name (pin : string) : string :=
  if (pin =? "G17")%string then "P10"%string
  else if (pin =? "G31")%string then "P17"%string
  else if (pin =? "G30")%string then "P18"%string
  else pin.

Definition module_names (pins : pins_arg) : pins_arg :=
  match pins with
  | PinStr pin => PinStr (module_name pin)
  | PinSeq l => PinSeq (map module_name l)
  end.

(** Whether [k] whole seconds, on doubles and at factor 1, give the
    quotient by 1.024 rounded to the nearest integer, halves upward. *)
Definition rounds_half_up (k : Z) : bool :=
  match sleep_ticks 53 1024 (PyInt k) 1 with
  | Val ticks => ticks =? (1000 * k + 512) / 1024
  | Exc _ => false
  end.

(** The integers from [lo] to [hi]. *)
Definition whole_range (lo hi : Z) : list Z :=
  map (fun i => lo + Z.of_nat i) (seq 0 (Z.to_nat (hi - lo + 1))).

(** Whether the voltage written with [k] thousandths of a volt gives, on
    doubles, [524.288 / volts] rounded to the nearest integer. *)
Definition battery_limit_rounds (k : Z) : bool :=
  match min_voltage_register 53 1024 (PyFloat (float_literal 53 1024 k 3)) with
  | Val r => r =? (1048576 + k) / (2 * k)
  | Exc _ => false
  end.


(** The real number a Python number stands for; 0 for what is no number. *)
Definition number_value (a : pynum) : Q :=
  match a with
  | PyInt z => inject_Z z
  | PyFloat (S754_finite sign m e) =>
      ((if sign then -1 else 1) * inject_Z (Zpos m) * 2 ^ e)%Q
  | PyFloat _ => 0%Q
  end.

(** * Properties *)

(** ** Running the transport *)

Lemma land_0xFF_mod (v : Z) : Z.land v 0xFF = v mod 256.
Proof. exact (Z.land_ones v 8 ltac:(lia)). Qed.

Lemma land_0xFF_is_byte (v : Z) : is_byte (Z.land v 0xFF) = true.
Proof.
  rewrite land_0xFF_mod. unfold is_byte.
  pose proof (Z.mod_pos_bound v 256 ltac:(lia)) as Hb.
  apply andb_true_iff. split; [apply Z.leb_le | apply Z.ltb_lt]; lia.
Qed.

Lemma land_0xFF_byte (v : Z) : 0 <= v < 256 -> Z.land v 0xFF = v.
Proof. intros Hv. rewrite land_0xFF_mod. apply Z.mod_small. exact Hv. Qed.

Lemma is_byte_iff (v : Z) : is_byte v = true <-> 0 <= v < 256.
Proof.
  unfold is_byte. rewrite andb_true_iff, Z.leb_le, Z.ltb_lt. reflexivity.
Qed.

Lemma uart_read_trace (nbytes : option Z) (s : state) :
  trace (snd (uart_read nbytes s)) = trace s ++ [EvRead nbytes].
Proof. unfold uart_read. destruct (next_rx s). reflexivity. Qed.

Lemma _magic_run (address and_val or_val xor_val : Z) (expected : option Z) (s : state) :
  is_byte address = true ->
  _magic address and_val or_val xor_val expected s =
  read_reply expected
    (add_trace s (command address (Z.land and_val 0xFF) (Z.land or_val 0xFF)
                          (Z.land xor_val 0xFF))).
Proof.
  intros Ha.
  unfold _magic, _start, _send, bind, lift, py_bytes, uart_sendbreak, uart_write, emit.
  cbn [forallb]. rewrite Ha, !land_0xFF_is_byte. cbn.
  unfold add_trace, command. rewrite <- !app_assoc. reflexivity.
Qed.

(** A frame whose address is not a byte never leaves: [bytes] raises after
    the break and the synchronisation byte were sent. *)
Lemma _magic_bad_address (address and_val or_val xor_val : Z) (expected : option Z)
      (s : state) :
  is_byte address = false ->
  exists msg,
    _magic address and_val or_val xor_val expected s =
    (Exc (ValueError msg), add_trace s [EvBreak 20; EvWrite [0x55]]).
Proof.
  intros Ha. eexists.
  unfold _magic, _start, _send, bind, lift, py_bytes, uart_sendbreak, uart_write, emit.
  cbn [forallb]. rewrite Ha. cbn.
  unfold add_trace. rewrite <- !app_assoc. reflexivity.
Qed.

Lemma write_op_run (address and_val or_val xor_val : Z) (s : state) :
  is_byte address = true ->
  (_magic address and_val or_val xor_val None ;;; ret tt) s =
  (Val tt,
   snd (uart_read None
          (add_trace s (command address (Z.land and_val 0xFF) (Z.land or_val 0xFF)
                                (Z.land xor_val 0xFF))))).
Proof.
  intros Ha. unfold bind. rewrite _magic_run by exact Ha.
  unfold read_reply, uart_read. destruct (next_rx _). reflexivity.
Qed.

Lemma write_op_trace (address and_val or_val xor_val : Z) (s : state) :
  is_byte address = true ->
  trace (snd ((_magic address and_val or_val xor_val None ;;; ret tt) s)) =
  trace s ++ command address (Z.land and_val 0xFF) (Z.land or_val 0xFF)
                     (Z.land xor_val 0xFF) ++ [EvRead None].
Proof.
  intros Ha. rewrite write_op_run by exact Ha. cbn [snd].
  rewrite uart_read_trace. unfold add_trace. cbn [trace].
  rewrite <- app_assoc. reflexivity.
Qed.

Lemma lnot_land_0xFF (mask : Z) :
  0 <= mask < 256 -> Z.land (Z.lnot mask) 0xFF = 255 - mask.
Proof.
  intros Hm. rewrite land_0xFF_mod. unfold Z.lnot.
  replace (Z.pred (- mask)) with ((255 - mask) + (-1) * 256) by lia.
  rewrite Z.mod_add by lia. apply Z.mod_small. lia.
Qed.

(** ** Register operations *)

(** C5.  For an 8-bit address and an 8-bit operand each register operation
    succeeds and sends, after the break and the synchronisation byte, one
    frame: [poke] sends [addr, 0x00, value, 0x00], [setbits] sends
    [addr, 0xFF, mask, 0x00], [clearbits] sends [addr, ~mask & 0xFF, 0x00,
    0x00] (and [~mask & 0xFF] is [255 - mask]), [togglebits] sends
    [addr, 0xFF, 0x00, mask]. *)
Theorem register_ops_frames (address operand : Z) (s : state) :
  0 <= address < 256 ->
  0 <= operand < 256 ->
  (fst (poke address operand s) = Val tt /\
   trace (snd (poke address operand s)) =
   trace s ++ [EvBreak 20; EvWrite [0x55];
               EvWrite [address; 0x00; operand; 0x00]; EvRead None]) /\
  (fst (setbits address operand s) = Val tt /\
   trace (snd (setbits address operand s)) =
   trace s ++ [EvBreak 20; EvWrite [0x55];
               EvWrite [address; 0xFF; operand; 0x00]; EvRead None]) /\
  (fst (clearbits address operand s) = Val tt /\
   trace (snd (clearbits address operand s)) =
   trace s ++ [EvBreak 20; EvWrite [0x55];
               EvWrite [address; Z.land (Z.lnot operand) 0xFF; 0x00; 0x00];
               EvRead None] /\
   Z.land (Z.lnot operand) 0xFF = 255 - operand) /\
  (fst (togglebits address operand s) = Val tt /\
   trace (snd (togglebits address operand s)) =
   trace s ++ [EvBreak 20; EvWrite [0x55];
               EvWrite [address; 0xFF; 0x00; operand]; EvRead None]).
Proof.
  intros Ha Ho.
  assert (Hb : is_byte address = true) by (apply is_byte_iff; exact Ha).
  pose proof (land_0xFF_byte operand Ho) as Hop.
  unfold poke, setbits, clearbits, togglebits.
  repeat split;
    try (rewrite write_op_run by exact Hb; reflexivity);
    try (rewrite write_op_trace by exact Hb; unfold command;
         rewrite ?Hop; reflexivity).
  apply lnot_land_0xFF. exact Ho.
Qed.

Lemma register_ops_frames_witness :
  (0 <= 0x45 < 256 /\ 0 <= 0x04 < 256) /\
  trace (snd (clearbits 0x45 0x04 (init_state [] []))) =
  [EvBreak 20; EvWrite [0x55]; EvWrite [0x45; 0xFB; 0x00; 0x00]; EvRead None].
Proof.
  split; [lia | ].
  exact (proj1 (proj2 (proj1 (proj2 (proj2
    (register_ops_frames 0x45 0x04 (init_state [] [])
       ltac:(lia) ltac:(lia))))))).
Defined.

Lemma peek_run (address : Z) (s : state) :
  is_byte address = true ->
  fst (peek address s) = subscript_reply (fst (next_rx s)) 6 /\
  trace (snd (peek address s)) =
  trace s ++ command address 0xFF 0 0 ++ [EvRead None].
Proof.
  intros Hb. unfold peek, bind. rewrite _magic_run by exact Hb.
  unfold read_reply, uart_read, lift, add_trace, next_rx. cbn [rx trace].
  destruct (rx s) as [| r rest]; cbn; rewrite <- app_assoc; split; reflexivity.
Qed.

(** C6, as the code has it.  For an 8-bit address [peek] sends the frame
    [addr, 0xFF, 0x00, 0x00], then calls [uart.read()] with no length, and
    returns the byte at index 6 of whatever that call delivers; a reply of
    fewer than seven bytes is an [IndexError], no reply a [TypeError]. *)
Theorem peek_returns_index_6 (address : Z) (s : state) :
  0 <= address < 256 ->
  trace (snd (peek address s)) =
  trace s ++ [EvBreak 20; EvWrite [0x55];
              EvWrite [address; 0xFF; 0x00; 0x00]; EvRead None] /\
  fst (peek address s) = subscript_reply (fst (next_rx s)) 6 /\
  (forall echo v,
      fst (next_rx s) = Some echo ->
      nth_error echo 6 = Some v ->
      fst (peek address s) = Val v).
Proof.
  intros Ha.
  assert (Hb : is_byte address = true) by (apply is_byte_iff; exact Ha).
  destruct (peek_run address s Hb) as [Hval Htr].
  split; [exact Htr | split; [exact Hval | ]].
  intros echo v He Hv. rewrite Hval, He. unfold subscript_reply.
  rewrite Hv. reflexivity.
Qed.

Lemma peek_returns_index_6_witness :
  0 <= 0x40 < 256 /\
  fst (peek 0x40 (init_state [Some [0x00; 0x55; 0x40; 0xFF; 0x00; 0x00; 0x11]] []))
  = Val 0x11.
Proof.
  split; [lia | ].
  exact (proj2 (proj2 (peek_returns_index_6 0x40
                         (init_state [Some [0x00; 0x55; 0x40; 0xFF; 0x00; 0x00; 0x11]] [])
                         ltac:(lia)))
               [0x00; 0x55; 0x40; 0xFF; 0x00; 0x00; 0x11] 0x11 eq_refl eq_refl).
Defined.

(** C6 as stated fails: no read of length 7 is requested.  With eight
    bytes waiting, [peek] asks for everything, receives all eight, and
    indexes the reply at 6. *)
Lemma peek_requests_no_length :
  let s := init_state [Some [0x00; 0x55; 0x40; 0xFF; 0x00; 0x00; 0x11; 0x63]] [] in
  trace (snd (peek WAKE_STATUS_ADDR s)) =
  [EvBreak 20; EvWrite [0x55]; EvWrite [0x40; 0xFF; 0x00; 0x00]; EvRead None] /\
  ~ In (EvRead (Some 7)) (trace (snd (peek WAKE_STATUS_ADDR s))) /\
  fst (_magic WAKE_STATUS_ADDR 0xFF 0 0 None s) =
  Val (Some [0x00; 0x55; 0x40; 0xFF; 0x00; 0x00; 0x11; 0x63]).
Proof.
  cbv zeta. split; [reflexivity | split; [ | reflexivity]].
  cbv. intuition discriminate.
Qed.

(** ** Pin masks *)

Lemma pin_position_valid (pin : string) :
  pin_position pin <> None <-> In pin valid_pins.
Proof.
  unfold pin_position, valid_pins. cbn [In].
  destruct (String.eqb_spec pin "P10"); [subst; cbn; intuition discriminate | ].
  destruct (String.eqb_spec pin "G17"); [subst; cbn; intuition discriminate | ].
  destruct (String.eqb_spec pin "P17"); [subst; cbn; intuition discriminate | ].
  destruct (String.eqb_spec pin "G31"); [subst; cbn; intuition discriminate | ].
  destruct (String.eqb_spec pin "P18"); [subst; cbn; intuition discriminate | ].
  destruct (String.eqb_spec pin "G30"); [subst; cbn; intuition discriminate | ].
  cbn. intuition congruence.
Qed.

Lemma pin_position_invalid (pin : string) :
  pin_position pin = None <-> ~ In pin valid_pins.
Proof.
  rewrite <- pin_position_valid. destruct (pin_position pin); intuition congruence.
Qed.

Lemma pin_position_range (pin : string) (k : Z) :
  pin_position pin = Some k -> k = 0 \/ k = 1 \/ k = 3.
Proof.
  unfold pin_position.
  repeat match goal with |- context [if ?b then _ else _] => destruct b end;
    intros H; inversion H; auto.
Qed.

Lemma _add_to_pin_mask_spec (mask : Z) (pin : string) :
  _add_to_pin_mask mask pin =
  match pin_position pin with
  | Some k => Val (Z.lor mask (Z.shiftl 1 k))
  | None => Exc (ValueError (invalid_pin_msg pin))
  end.
Proof.
  unfold _add_to_pin_mask, pin_position.
  repeat match goal with |- context [if ?b then _ else _] => destruct b end;
    reflexivity.
Qed.

Lemma add_pins_valid (l : list string) (mask : Z) :
  Forall (fun pin => In pin valid_pins) l ->
  add_pins mask l = Val (Z.lor mask (or_of_pins l)).
Proof.
  intros Hl. revert mask.
  induction Hl as [| pin l Hpin _ IH]; intros mask; cbn [add_pins or_of_pins fold_right].
  - rewrite Z.lor_0_r. reflexivity.
  - rewrite _add_to_pin_mask_spec. unfold pin_bit.
    apply pin_position_valid in Hpin.
    destruct (pin_position pin) as [k |]; [ | congruence].
    cbn [obind]. rewrite IH. unfold or_of_pins. rewrite Z.lor_assoc. reflexivity.
Qed.

(** The first identifier outside the closed set ends the loop with its
    [ValueError]. *)
Lemma add_pins_invalid (l : list string) (mask : Z) :
  Exists (fun pin => ~ In pin valid_pins) l ->
  exists pin,
    In pin l /\ ~ In pin valid_pins /\
    add_pins mask l = Exc (ValueError (invalid_pin_msg pin)).
Proof.
  intros Hl. revert mask.
  induction l as [| p l IH]; intros mask.
  - inversion Hl.
  - cbn [add_pins]. rewrite _add_to_pin_mask_spec.
    destruct (pin_position p) as [k |] eqn:Hp.
    + cbn [obind].
      assert (Hrest : Exists (fun pin => ~ In pin valid_pins) l).
      { inversion Hl as [? ? Hbad | ? ? Hbad]; subst; [ | exact Hbad].
        apply pin_position_invalid in Hbad. congruence. }
      destruct (IH Hrest (Z.lor mask (Z.shiftl 1 k))) as (pin & Hin & Hbad & Hrun).
      exists pin. split; [right; exact Hin | split; [exact Hbad | exact Hrun]].
    + exists p. split; [left; reflexivity | split; [ | reflexivity]].
      apply pin_position_invalid. exact Hp.
Qed.

Lemma _create_pin_mask_valid (pins : pins_arg) :
  Forall (fun pin => In pin valid_pins) (pin_ids pins) ->
  _create_pin_mask pins = Val (Z.land (or_of_pins (pin_ids pins)) PIN_MASK).
Proof.
  intros Hv. unfold _create_pin_mask.
  destruct pins as [pin | l]; cbn [pin_ids] in *.
  - replace (_add_to_pin_mask 0 pin) with (add_pins 0 [pin]).
    + rewrite add_pins_valid by exact Hv. rewrite Z.lor_0_l. reflexivity.
    + cbn [add_pins]. destruct (_add_to_pin_mask 0 pin); reflexivity.
  - rewrite add_pins_valid by exact Hv. rewrite Z.lor_0_l. reflexivity.
Qed.

Lemma _create_pin_mask_invalid (pins : pins_arg) :
  Exists (fun pin => ~ In pin valid_pins) (pin_ids pins) ->
  exists pin,
    In pin (pin_ids pins) /\ ~ In pin valid_pins /\
    _create_pin_mask pins = Exc (ValueError (invalid_pin_msg pin)).
Proof.
  intros Hbad. unfold _create_pin_mask.
  destruct pins as [pin | l]; cbn [pin_ids] in *.
  - exists pin. inversion Hbad as [? ? Hp | ? ? Hp]; subst; [ | inversion Hp].
    split; [left; reflexivity | split; [exact Hp | ]].
    rewrite _add_to_pin_mask_spec.
    apply pin_position_invalid in Hp. rewrite Hp. reflexivity.
  - destruct (add_pins_invalid l 0 Hbad) as (pin & Hin & Hp & Hrun).
    exists pin. rewrite Hrun. auto.
Qed.

Lemma pin_bit_testbit (pin : string) (i : Z) :
  Z.testbit (pin_bit pin) i =
  match pin_position pin with
  | Some k => i =? k
  | None => false
  end.
Proof.
  unfold pin_bit. destruct (pin_position pin) as [k |] eqn:Hk.
  - assert (0 <= k) by (destruct (pin_position_range pin k Hk) as [-> | [-> | ->]]; lia).
    rewrite Z.shiftl_1_l, Z.pow2_bits_eqb by assumption. apply Z.eqb_sym.
  - apply Z.bits_0.
Qed.

Lemma or_of_pins_testbit (l : list string) (i : Z) :
  Z.testbit (or_of_pins l) i = existsb (fun pin => Z.testbit (pin_bit pin) i) l.
Proof.
  induction l as [| pin l IH]; cbn [or_of_pins fold_right existsb].
  - apply Z.bits_0.
  - rewrite Z.lor_spec. fold (or_of_pins l). rewrite IH. reflexivity.
Qed.

Lemma PIN_MASK_testbit (i : Z) : Z.testbit PIN_MASK i = (i =? 1) || (i =? 3).
Proof.
  change PIN_MASK with (Z.lor (2 ^ 1) (2 ^ 3)).
  rewrite Z.lor_spec, !Z.pow2_bits_eqb by lia.
  rewrite (Z.eqb_sym 1 i), (Z.eqb_sym 3 i). reflexivity.
Qed.

Lemma existsb_same_elements {A : Type} (f : A -> bool) (l l' : list A) :
  (forall x, In x l <-> In x l') -> existsb f l = existsb f l'.
Proof.
  intros Hsame. apply eq_true_iff_eq. rewrite !existsb_exists.
  split; intros (x & Hin & Hf); exists x; split; try exact Hf; apply Hsame; exact Hin.
Qed.

Lemma or_of_pins_same_elements (l l' : list string) :
  (forall pin, In pin l <-> In pin l') -> or_of_pins l = or_of_pins l'.
Proof.
  intros Hsame. apply Z.bits_inj'. intros i _.
  rewrite !or_of_pins_testbit. apply existsb_same_elements. exact Hsame.
Qed.

(** C1, as the code has it.  For an input of valid identifiers the result
    is the OR of one bit per identifier (position 0 for P10/G17, 1 for
    P17/G31, 3 for P18/G30) ANDed with [PIN_MASK = 0b1010], which covers
    exactly the bits 1 and 3: bit [i] of the result is set exactly when [i]
    is 1 or 3 and some identifier of the input has position [i], so P10/G17
    contributes nothing.  The result depends only on which identifiers
    occur, not on their order or multiplicity. *)
Theorem create_pin_mask_or_of_bits (pins : pins_arg) :
  Forall (fun pin => In pin valid_pins) (pin_ids pins) ->
  _create_pin_mask pins = Val (Z.land (or_of_pins (pin_ids pins)) PIN_MASK) /\
  (forall i, Z.testbit PIN_MASK i = true <-> i = 1 \/ i = 3) /\
  (forall i,
      Z.testbit (Z.land (or_of_pins (pin_ids pins)) PIN_MASK) i = true <->
      (i = 1 \/ i = 3) /\
      exists pin, In pin (pin_ids pins) /\ pin_position pin = Some i) /\
  (forall pins',
      (forall pin, In pin (pin_ids pins) <-> In pin (pin_ids pins')) ->
      _create_pin_mask pins' = _create_pin_mask pins).
Proof.
  intros Hv.
  assert (Hmask : forall i, Z.testbit PIN_MASK i = true <-> i = 1 \/ i = 3).
  { intros i. rewrite PIN_MASK_testbit, orb_true_iff, !Z.eqb_eq. reflexivity. }
  split; [apply _create_pin_mask_valid; exact Hv | ].
  split; [exact Hmask | ].
  split.
  - intros i. rewrite Z.land_spec, andb_true_iff, Hmask, or_of_pins_testbit,
      existsb_exists.
    split.
    + intros [(pin & Hin & Hbit) Hi]. split; [exact Hi | ].
      exists pin. split; [exact Hin | ].
      rewrite pin_bit_testbit in Hbit.
      destruct (pin_position pin) as [k |]; [ | discriminate].
      apply Z.eqb_eq in Hbit. subst k. reflexivity.
    + intros [Hi (pin & Hin & Hpos)]. split; [ | exact Hi].
      exists pin. split; [exact Hin | ].
      rewrite pin_bit_testbit, Hpos. apply Z.eqb_refl.
  - intros pins' Hsame.
    assert (Hv' : Forall (fun pin => In pin valid_pins) (pin_ids pins')).
    { rewrite Forall_forall in *. intros pin Hin. apply Hv, Hsame. exact Hin. }
    rewrite !_create_pin_mask_valid by assumption.
    rewrite (or_of_pins_same_elements (pin_ids pins') (pin_ids pins)); [reflexivity | ].
    intros pin. symmetry. apply Hsame.
Qed.

Lemma create_pin_mask_or_of_bits_witness :
  Forall (fun pin => In pin valid_pins) (pin_ids (PinSeq ["P10"; "P18"]%string)) /\
  _create_pin_mask (PinSeq ["P10"; "P18"]%string) = Val (Z.shiftl 1 3) /\
  _create_pin_mask (PinSeq ["P18"; "P10"; "P18"]%string) =
  _create_pin_mask (PinSeq ["P10"; "P18"]%string).
Proof.
  assert (Hv : Forall (fun pin => In pin valid_pins)
                      (pin_ids (PinSeq ["P10"; "P18"]%string))).
  { cbn [pin_ids].
    apply Forall_cons; [cbn; auto 10 | ].
    apply Forall_cons; [cbn; auto 10 | apply Forall_nil]. }
  split; [exact Hv | ].
  destruct (create_pin_mask_or_of_bits (PinSeq ["P10"; "P18"]%string) Hv)
    as (Hrun & _ & _ & Hsame).
  split; [rewrite Hrun; reflexivity | ].
  apply Hsame. intros pin. cbn. tauto.
Defined.

(** C1 as stated fails: bit 0 is not in [PIN_MASK], and the set
    [{P10, P18}] translates to bit 3 alone, not to [bit0 | bit3]. *)
Lemma create_pin_mask_drops_bit0 :
  _create_pin_mask (PinSeq ["P10"; "P18"]%string) = Val 0x08 /\
  _create_pin_mask (PinSeq ["P10"; "P18"]%string) <>
  Val (Z.lor (Z.shiftl 1 0) (Z.shiftl 1 3)) /\
  Z.testbit PIN_MASK 0 = false.
Proof.
  split; [reflexivity | split; [ | reflexivity]].
  cbv. discriminate.
Qed.

(** C7.  [_add_to_pin_mask] raises the invalid-pin [ValueError] for every
    identifier outside [{P10, G17, P17, G31, P18, G30}], whatever the mask
    so far; an input that holds such an identifier makes
    [_create_pin_mask] raise it instead of returning a mask, and each of
    the six pin operations then raises it too and sends nothing. *)
Theorem invalid_pin_raises (pin : string) (mask : Z) (pins : pins_arg) (s : state) :
  ~ In pin valid_pins ->
  _add_to_pin_mask mask pin = Exc (ValueError (invalid_pin_msg pin)) /\
  (In pin (pin_ids pins) ->
   exists bad,
     In bad (pin_ids pins) /\ ~ In bad valid_pins /\
     _create_pin_mask pins = Exc (ValueError (invalid_pin_msg bad)) /\
     enable_pullups pins s = (Exc (ValueError (invalid_pin_msg bad)), s) /\
     disable_pullups pins s = (Exc (ValueError (invalid_pin_msg bad)), s) /\
     enable_wake_on_raise pins s = (Exc (ValueError (invalid_pin_msg bad)), s) /\
     disable_wake_on_raise pins s = (Exc (ValueError (invalid_pin_msg bad)), s) /\
     enable_wake_on_fall pins s = (Exc (ValueError (invalid_pin_msg bad)), s) /\
     disable_wake_on_fall pins s = (Exc (ValueError (invalid_pin_msg bad)), s)).
Proof.
  intros Hbad. split.
  - rewrite _add_to_pin_mask_spec.
    apply pin_position_invalid in Hbad. rewrite Hbad. reflexivity.
  - intros Hin.
    destruct (_create_pin_mask_invalid pins) as (bad & Hbin & Hbbad & Hrun).
    { apply Exists_exists. exists pin. split; assumption. }
    exists bad. split; [exact Hbin | split; [exact Hbbad | split; [exact Hrun | ]]].
    unfold enable_pullups, disable_pullups, enable_wake_on_raise,
      disable_wake_on_raise, enable_wake_on_fall, disable_wake_on_fall, bind, lift.
    rewrite Hrun. repeat split.
Qed.

Lemma invalid_pin_raises_witness :
  ~ In "P19"%string valid_pins /\
  _add_to_pin_mask 0x02 "P19" = Exc (ValueError "Invalid Pin specified: P19").
Proof.
  assert (Hbad : ~ In "P19"%string valid_pins).
  { cbn. intuition discriminate. }
  split; [exact Hbad | ].
  exact (proj1 (invalid_pin_raises "P19" 0x02 (PinSeq ["P17"; "P19"]%string)
                  (init_state [] []) Hbad)).
Defined.

(** ** Clock calibration *)

Lemma nth_error_4_1 {A : Type} (l : list A) (x : A) :
  nth_error l 4 = Some x -> exists y, nth_error l 1 = Some y.
Proof.
  intros H4. destruct (nth_error l 1) as [y |] eqn:H1; [exists y; reflexivity | ].
  apply nth_error_None in H1.
  assert (Hnone : nth_error l 4 = None) by (apply nth_error_None; lia).
  congruence.
Qed.

Lemma measure_factor_run (s : state) :
  try_except measure_factor (ret tt) s =
  (Val tt,
   mkState (candidate_factor (clk_cal_factor s) (_pulses s)) (_pulses s)
           (trace s) (rx s) (captures s)).
Proof.
  unfold try_except, measure_factor, bind, get_pulses, lift, pulse_duration,
    candidate_factor, set_clk_cal_factor, ret.
  destruct (nth_error (_pulses s) 4) as [hi |] eqn:H4.
  - destruct (nth_error_4_1 _ _ H4) as [lo H1]. rewrite H1.
    destruct s; reflexivity.
  - destruct s; reflexivity.
Qed.

Lemma calibrate_run (s : state) :
  calibrate s =
  (Val tt,
   mkState (accept_factor (candidate_factor (clk_cal_factor s) (captured s)))
           (captured s) (trace s ++ calibrate_events) (rx s) (tl (captures s))).
Proof.
  unfold calibrate. unfold bind at 1.
  rewrite _magic_run by reflexivity.
  change (read_reply (Some 0)) with (@ret (option (list Z)) None).
  unfold ret at 1.
  unfold bind, uart_deinit, uart_init, emit, pulses_get, set_pulses, add_trace.
  cbn [clk_cal_factor _pulses trace rx captures].
  unfold captured, accept_factor, calibrate_events.
  destruct (captures s) as [| p rest]; cbn [hd tl];
    rewrite measure_factor_run; cbn [clk_cal_factor _pulses trace rx captures];
    unfold get_clk_cal_factor, set_clk_cal_factor, ret;
    cbn [clk_cal_factor _pulses trace rx captures];
    rewrite <- !app_assoc;
    match goal with |- context [out_of_range ?f] => destruct (out_of_range f) end;
    reflexivity.
Qed.

Lemma out_of_range_false (f : Q) :
  out_of_range f = false <-> (0.75 <= f /\ f <= 1.25)%Q.
Proof.
  unfold out_of_range, py_gt, py_lt.
  rewrite orb_false_iff, !negb_false_iff, !Qle_bool_iff. tauto.
Qed.

Lemma out_of_range_true (f : Q) :
  out_of_range f = true <-> (1.25 < f \/ f < 0.75)%Q.
Proof.
  unfold out_of_range, py_gt, py_lt.
  rewrite orb_true_iff, !negb_true_iff.
  split.
  - intros [H | H]; [left | right]; apply Qnot_le_lt; intros Hle;
      apply Qle_bool_iff in Hle; congruence.
  - intros [H | H]; [left | right];
      (destruct (Qle_bool _ _) eqn:Hb; [ | reflexivity]);
      apply Qle_bool_iff in Hb; exfalso; apply (Qlt_not_le _ _ H); exact Hb.
Qed.

Lemma accept_factor_range (f : Q) :
  (0.75 <= accept_factor f /\ accept_factor f <= 1.25)%Q.
Proof.
  unfold accept_factor. destruct (out_of_range f) eqn:Hr.
  - split; discriminate.
  - apply out_of_range_false. exact Hr.
Qed.

Lemma calibrate_factor_eq (s : state) :
  clk_cal_factor (snd (calibrate s)) =
  accept_factor (candidate_factor (clk_cal_factor s) (captured s)).
Proof. rewrite calibrate_run. reflexivity. Qed.

Lemma candidate_factor_measured (prior : Q) (pulses : list (Z * Z)) (hi lo : Z * Z) :
  nth_error pulses 4 = Some hi ->
  nth_error pulses 1 = Some lo ->
  candidate_factor prior pulses =
  (inject_Z (snd hi - snd lo) / inject_Z EXP_RTC_PERIOD)%Q.
Proof. intros H4 H1. unfold candidate_factor. rewrite H4, H1. reflexivity. Qed.

Lemma candidate_factor_short (prior : Q) (pulses : list (Z * Z)) :
  (List.length pulses < 5)%nat -> candidate_factor prior pulses = prior.
Proof.
  intros Hlen. unfold candidate_factor.
  assert (H4 : nth_error pulses 4 = None) by (apply nth_error_None; lia).
  rewrite H4. reflexivity.
Qed.

(** C3.  [calibrate] returns normally.  When the capture has entries 4
    and 1, the factor it leaves is [(pulses[4][1] - pulses[1][1]) /
    EXP_RTC_PERIOD], subject to the final range check; when that difference
    is exactly [EXP_RTC_PERIOD] the factor is 1.  When the capture has
    fewer than five entries and the prior factor lies in the accepted
    range, the factor is left as it was. *)
Theorem calibrate_factor (s : state) (hi lo : Z * Z) :
  fst (calibrate s) = Val tt /\
  (nth_error (captured s) 4 = Some hi ->
   nth_error (captured s) 1 = Some lo ->
   let measured := (inject_Z (snd hi - snd lo) / inject_Z EXP_RTC_PERIOD)%Q in
   clk_cal_factor (snd (calibrate s)) =
   (if out_of_range measured then 1%Q else measured) /\
   (snd hi - snd lo = EXP_RTC_PERIOD ->
    (clk_cal_factor (snd (calibrate s)) == 1)%Q)) /\
  ((List.length (captured s) < 5)%nat ->
   (0.75 <= clk_cal_factor s /\ clk_cal_factor s <= 1.25)%Q ->
   clk_cal_factor (snd (calibrate s)) = clk_cal_factor s).
Proof.
  split; [rewrite calibrate_run; reflexivity | ].
  split.
  - intros H4 H1 measured.
    assert (Hf : clk_cal_factor (snd (calibrate s)) =
                 (if out_of_range measured then 1%Q else measured)).
    { rewrite calibrate_factor_eq, (candidate_factor_measured _ _ hi lo H4 H1).
      reflexivity. }
    split; [exact Hf | ].
    intros Hd. rewrite Hf. subst measured. rewrite Hd. reflexivity.
  - intros Hlen Hrange.
    rewrite calibrate_factor_eq, candidate_factor_short by exact Hlen.
    unfold accept_factor.
    apply out_of_range_false in Hrange. rewrite Hrange. reflexivity.
Qed.

Lemma calibrate_factor_witness :
  let s := init_state []
             [[(1, 1000); (0, 1000); (1, 1000); (0, 1000); (1, 8000); (0, 1000)]] in
  let t := mkState 1.1 [] [] [] [[(1, 1000); (0, 1000); (1, 1000)]] in
  (nth_error (captured s) 4 = Some (1, 8000) /\
   nth_error (captured s) 1 = Some (0, 1000) /\
   snd (1, 8000) - snd (0, 1000) = EXP_RTC_PERIOD /\
   (clk_cal_factor (snd (calibrate s)) == 1)%Q) /\
  ((List.length (captured t) < 5)%nat /\
   (0.75 <= clk_cal_factor t /\ clk_cal_factor t <= 1.25)%Q /\
   clk_cal_factor (snd (calibrate t)) = 1.1%Q).
Proof.
  intros s t. split.
  - split; [reflexivity | split; [reflexivity | split; [reflexivity | ]]].
    exact (proj2 (proj1 (proj2 (calibrate_factor s (1, 8000) (0, 1000)))
                    eq_refl eq_refl) eq_refl).
  - assert (Hlen : (List.length (captured t) < 5)%nat) by (cbn; lia).
    assert (Hrange : (0.75 <= clk_cal_factor t /\ clk_cal_factor t <= 1.25)%Q).
    { split; discriminate. }
    split; [exact Hlen | split; [exact Hrange | ]].
    exact (proj2 (proj2 (calibrate_factor t (0, 0) (0, 0))) Hlen Hrange).
Defined.

(** C4, as the code has it.  Once [calibrate] has measured a factor, a
    value strictly above 1.25 or strictly below 0.75 is replaced by 1, and
    every value of the closed interval from 0.75 to 1.25, the two bounds
    included, is kept. *)
Theorem calibrate_accepts_closed_range (s : state) (hi lo : Z * Z) :
  nth_error (captured s) 4 = Some hi ->
  nth_error (captured s) 1 = Some lo ->
  let measured := (inject_Z (snd hi - snd lo) / inject_Z EXP_RTC_PERIOD)%Q in
  ((1.25 < measured \/ measured < 0.75)%Q ->
   clk_cal_factor (snd (calibrate s)) = 1%Q) /\
  ((0.75 <= measured /\ measured <= 1.25)%Q ->
   clk_cal_factor (snd (calibrate s)) = measured).
Proof.
  intros H4 H1 measured.
  rewrite calibrate_factor_eq, (candidate_factor_measured _ _ hi lo H4 H1).
  fold measured. unfold accept_factor. split.
  - intros Hout. apply out_of_range_true in Hout. rewrite Hout. reflexivity.
  - intros Hin. apply out_of_range_false in Hin. rewrite Hin. reflexivity.
Qed.

Lemma calibrate_accepts_closed_range_witness :
  let s := init_state []
             [[(1, 1000); (0, 1000); (1, 1000); (0, 1000); (1, 15000); (0, 1000)]] in
  let t := init_state []
             [[(1, 1000); (0, 1000); (1, 1000); (0, 1000); (1, 9750); (0, 1000)]] in
  (nth_error (captured s) 4 = Some (1, 15000) /\
   nth_error (captured s) 1 = Some (0, 1000) /\
   (1.25 < inject_Z (15000 - 1000) / inject_Z EXP_RTC_PERIOD)%Q /\
   clk_cal_factor (snd (calibrate s)) = 1%Q) /\
  (nth_error (captured t) 4 = Some (1, 9750) /\
   nth_error (captured t) 1 = Some (0, 1000) /\
   (inject_Z (9750 - 1000) / inject_Z EXP_RTC_PERIOD <= 1.25)%Q /\
   clk_cal_factor (snd (calibrate t)) =
   (inject_Z (9750 - 1000) / inject_Z EXP_RTC_PERIOD)%Q).
Proof.
  intros s t. split.
  - split; [reflexivity | split; [reflexivity | split; [reflexivity | ]]].
    exact (proj1 (calibrate_accepts_closed_range s (1, 15000) (0, 1000)
                    eq_refl eq_refl)
                 (or_introl eq_refl)).
  - split; [reflexivity | split; [reflexivity | split; [discriminate | ]]].
    refine (proj2 (calibrate_accepts_closed_range t (1, 9750) (0, 1000)
                     eq_refl eq_refl) _).
    split; discriminate.
Defined.

(** C4 as stated fails at both bounds: a measured factor of exactly 0.75
    or exactly 1.25 is kept, not replaced by 1. *)
Lemma calibrate_keeps_bounds :
  let lo := init_state []
              [[(1, 1000); (0, 2750); (1, 1000); (0, 1000); (1, 8000); (0, 1000)]] in
  let hi := init_state []
              [[(1, 1000); (0, 1000); (1, 1000); (0, 1000); (1, 9750); (0, 1000)]] in
  ((clk_cal_factor (snd (calibrate lo)) == 0.75)%Q /\
   ~ (clk_cal_factor (snd (calibrate lo)) == 1)%Q) /\
  ((clk_cal_factor (snd (calibrate hi)) == 1.25)%Q /\
   ~ (clk_cal_factor (snd (calibrate hi)) == 1)%Q).
Proof.
  cbv zeta. repeat split; try reflexivity; intros H; vm_compute in H; discriminate.
Qed.

(** ** Wake status *)

Lemma testbit_b2z (x : bool) (m : Z) : Z.testbit (Z.b2z x) m = x && (m =? 0).
Proof.
  destruct x; cbn [Z.b2z andb]; [ | apply Z.bits_0].
  destruct (Z.eqb_spec m 0) as [-> | Hm]; [reflexivity | ].
  destruct (Z.lt_ge_cases m 0) as [Hneg | Hpos].
  - apply Z.testbit_neg_r. exact Hneg.
  - apply Z.bits_above_log2; cbn; lia.
Qed.

Lemma land_pow2 (b k : Z) :
  0 <= k -> Z.land b (2 ^ k) = Z.shiftl (Z.b2z (Z.testbit b k)) k.
Proof.
  intros Hk. apply Z.bits_inj'. intros n Hn.
  rewrite Z.land_spec, Z.pow2_bits_eqb, Z.shiftl_spec, testbit_b2z by lia.
  destruct (Z.eqb_spec k n) as [-> | Hkn].
  - rewrite Z.sub_diag. reflexivity.
  - destruct (Z.eqb_spec (n - k) 0); [lia | ]. rewrite !andb_false_r. reflexivity.
Qed.

Lemma extract_bit (b k : Z) :
  0 <= k -> Z.shiftr (Z.land b (2 ^ k)) k = Z.b2z (Z.testbit b k).
Proof.
  intros Hk. rewrite land_pow2 by exact Hk.
  rewrite Z.shiftr_shiftl_l by lia. rewrite Z.sub_diag. apply Z.shiftl_0_r.
Qed.

(** C9.  For every value read from the wake-status register the [wake]
    entry keeps bit 4 (the timer-wake flag [TIMER_WAKE]) and bit 5 (the
    power-on flag [POWER_ON_WAKE]) and nothing else, and the entries P10,
    P17 and P18 are bits 0, 1 and 3; [get_wake_status] returns this decoding
    of the byte at index 6 of the reply; [0b00010001] decodes to timer wake,
    P10 at 1, P17 and P18 at 0. *)
Theorem wake_status_bits (wake_r : Z) (s : state) (echo : list Z) :
  Z.land (wake (decode_wake_status wake_r)) TIMER_WAKE =
  (if Z.testbit wake_r 4 then TIMER_WAKE else 0) /\
  Z.land (wake (decode_wake_status wake_r)) POWER_ON_WAKE =
  (if Z.testbit wake_r 5 then POWER_ON_WAKE else 0) /\
  wake (decode_wake_status wake_r) =
  Z.lor (if Z.testbit wake_r 4 then TIMER_WAKE else 0)
        (if Z.testbit wake_r 5 then POWER_ON_WAKE else 0) /\
  P10 (decode_wake_status wake_r) = Z.b2z (Z.testbit wake_r 0) /\
  P17 (decode_wake_status wake_r) = Z.b2z (Z.testbit wake_r 1) /\
  P18 (decode_wake_status wake_r) = Z.b2z (Z.testbit wake_r 3) /\
  (fst (next_rx s) = Some echo ->
   nth_error echo 6 = Some wake_r ->
   fst (get_wake_status s) = Val (decode_wake_status wake_r)) /\
  decode_wake_status 17 =
  {| wake := TIMER_WAKE; P10 := 1; P17 := 0; P18 := 0 |}.
Proof.
  assert (Hw : wake (decode_wake_status wake_r) =
               Z.lor (if Z.testbit wake_r 4 then TIMER_WAKE else 0)
                     (if Z.testbit wake_r 5 then POWER_ON_WAKE else 0)).
  { unfold decode_wake_status. cbn [wake].
    rewrite Z.land_lor_distr_r.
    change TIMER_WAKE with (2 ^ 4). change POWER_ON_WAKE with (2 ^ 5).
    rewrite !land_pow2 by lia.
    destruct (Z.testbit wake_r 4), (Z.testbit wake_r 5); reflexivity. }
  split; [rewrite Hw; destruct (Z.testbit wake_r 4), (Z.testbit wake_r 5); reflexivity | ].
  split; [rewrite Hw; destruct (Z.testbit wake_r 4), (Z.testbit wake_r 5); reflexivity | ].
  split; [exact Hw | ].
  unfold decode_wake_status at 1 2 3. cbn [P10 P17 P18].
  split; [change 1 with (2 ^ 0) at 1; rewrite land_pow2 by lia; apply Z.shiftl_0_r | ].
  split; [exact (extract_bit wake_r 1 ltac:(lia)) | ].
  split; [exact (extract_bit wake_r 3 ltac:(lia)) | ].
  split; [ | reflexivity].
  intros He Hv.
  destruct (peek_run WAKE_STATUS_ADDR s eq_refl) as [Hval _].
  unfold get_wake_status, bind, ret.
  rewrite He in Hval. unfold subscript_reply in Hval. rewrite Hv in Hval.
  destruct (peek WAKE_STATUS_ADDR s) as [[w | e] s']; cbn [fst] in *;
    inversion Hval; reflexivity.
Qed.

Lemma wake_status_bits_witness :
  let s := init_state [Some [0x00; 0x55; 0x40; 0xFF; 0x00; 0x00; 0x11]] [] in
  fst (next_rx s) = Some [0x00; 0x55; 0x40; 0xFF; 0x00; 0x00; 0x11] /\
  nth_error [0x00; 0x55; 0x40; 0xFF; 0x00; 0x00; 0x11] 6 = Some 0x11 /\
  fst (get_wake_status s) =
  Val {| wake := TIMER_WAKE; P10 := 1; P17 := 0; P18 := 0 |}.
Proof.
  intros s. split; [reflexivity | split; [reflexivity | ]].
  exact (proj1 (proj2 (proj2 (proj2 (proj2 (proj2 (proj2
    (wake_status_bits 0x11 s [0x00; 0x55; 0x40; 0xFF; 0x00; 0x00; 0x11]))))))) 
    eq_refl eq_refl).
Defined.

(** ** Battery limit *)

Lemma write_op_state (address and_val or_val xor_val : Z) (s : state) :
  is_byte address = true ->
  (_magic address and_val or_val xor_val None ;;; ret tt) s =
  (Val tt,
   mkState (clk_cal_factor s) (_pulses s)
           (trace s ++ command address (Z.land and_val 0xFF) (Z.land or_val 0xFF)
                               (Z.land xor_val 0xFF) ++ [EvRead None])
           (tl (rx s)) (captures s)).
Proof.
  intros Ha. rewrite write_op_run by exact Ha.
  unfold uart_read, next_rx, add_trace. cbn [clk_cal_factor _pulses trace rx captures].
  destruct (rx s); cbn [snd tl]; rewrite <- app_assoc; reflexivity.
Qed.

Lemma set_min_voltage_limit_run (prec emax : Z) (value : pynum) (s : state) :
  set_min_voltage_limit prec emax value s =
  match min_voltage_register prec emax value with
  | Val r =>
      (Val tt,
       mkState (clk_cal_factor s) (_pulses s)
               (trace s ++ command MIN_BAT_ADDR 0x00 (Z.land r 0xFF) 0x00
                       ++ [EvRead None])
               (tl (rx s)) (captures s))
  | Exc e => (Exc e, s)
  end.
Proof.
  unfold set_min_voltage_limit, bind, lift.
  destruct (min_voltage_register prec emax value) as [r | e]; [ | reflexivity].
  unfold poke. rewrite write_op_state by reflexivity. reflexivity.
Qed.

(** C8, as the code has it.  [set_min_voltage_limit] validates nothing: it
    evaluates [int(((256 * 2.048) + (value / 2)) / value)] in floating
    point, and whatever integer comes out, in or out of the range of a
    byte, its low eight bits are poked into the minimum-battery register.
    It can fail: what the evaluation raises reaches the caller before
    anything is sent, [ZeroDivisionError] for a zero and [OverflowError]
    when the quotient is not finite.  On doubles 3.6 V gives 146 and
    1048.576 V gives 1. *)
Theorem set_min_voltage_limit_outcome (prec emax : Z) (value : pynum) (s : state) :
  (forall r,
      min_voltage_register prec emax value = Val r ->
      set_min_voltage_limit prec emax value s =
      (Val tt,
       mkState (clk_cal_factor s) (_pulses s)
               (trace s ++ [EvBreak 20; EvWrite [0x55];
                            EvWrite [MIN_BAT_ADDR; 0x00; r mod 256; 0x00];
                            EvRead None])
               (tl (rx s)) (captures s))) /\
  (forall e,
      min_voltage_register prec emax value = Exc e ->
      set_min_voltage_limit prec emax value s = (Exc e, s)) /\
  min_voltage_register 53 1024 (PyFloat (float_literal 53 1024 36 1)) = Val 146 /\
  min_voltage_register 53 1024 (PyFloat (float_literal 53 1024 1048576 3)) = Val 1 /\
  min_voltage_register 53 1024 (PyInt 0) = Exc ZeroDivisionError /\
  min_voltage_register 53 1024 (PyFloat (S754_zero false)) = Exc ZeroDivisionError /\
  min_voltage_register 53 1024 (PyFloat (S754_zero true)) = Exc ZeroDivisionError /\
  min_voltage_register 53 1024 (PyFloat (S754_infinity false)) =
  Exc (ValueError "cannot convert float NaN to integer").
Proof.
  split; [ | split; [ | repeat split; vm_compute; reflexivity]].
  - intros r Hr. rewrite set_min_voltage_limit_run, Hr, land_0xFF_mod. reflexivity.
  - intros e He. rewrite set_min_voltage_limit_run, He. reflexivity.
Qed.

Lemma set_min_voltage_limit_outcome_witness :
  min_voltage_register 53 1024 (PyFloat (float_literal 53 1024 15 1)) = Val 350 /\
  trace (snd (set_min_voltage_limit 53 1024 (PyFloat (float_literal 53 1024 15 1))
                (init_state [] []))) =
  [EvBreak 20; EvWrite [0x55]; EvWrite [0x41; 0x00; 94; 0x00]; EvRead None].
Proof.
  assert (Hr : min_voltage_register 53 1024 (PyFloat (float_literal 53 1024 15 1)) =
               Val 350) by (vm_compute; reflexivity).
  split; [exact Hr | ].
  rewrite (proj1 (set_min_voltage_limit_outcome 53 1024 _ (init_state [] [])) 350 Hr).
  reflexivity.
Defined.

(** C8 as stated fails: on doubles a voltage of zero raises
    [ZeroDivisionError], and the voltages [1e-320] and [10 ** 400] raise
    [OverflowError]; nothing is sent in either case. *)
Lemma set_min_voltage_limit_zero_raises :
  set_min_voltage_limit 53 1024 (PyInt 0) (init_state [] []) =
  (Exc ZeroDivisionError, init_state [] []) /\
  set_min_voltage_limit 53 1024 (PyFloat (float_literal 53 1024 1 320))
                        (init_state [] []) =
  (Exc OverflowError, init_state [] []) /\
  set_min_voltage_limit 53 1024 (PyInt (10 ^ 400)) (init_state [] []) =
  (Exc OverflowError, init_state [] []).
Proof. repeat split; vm_compute; reflexivity. Qed.

(** ** Going to sleep *)

Lemma land_0xFF_idem (v : Z) : Z.land (Z.land v 0xFF) 0xFF = Z.land v 0xFF.
Proof. apply land_0xFF_byte. apply is_byte_iff. apply land_0xFF_is_byte. Qed.


Lemma go_to_sleep_iter_run (prec emax : Z) (seconds : pynum) (s : state) :
  go_to_sleep_iter prec emax seconds s =
  match sleep_ticks prec emax seconds (held_factor s) with
  | Val ticks =>
      (Val ticks,
       mkState (held_factor s) (captured s)
               (trace s ++ calibrate_events ++ sleep_events ticks)
               (tl (tl (tl (tl (rx s))))) (tl (captures s)))
  | Exc e =>
      (Exc e,
       mkState (held_factor s) (captured s) (trace s ++ calibrate_events)
               (rx s) (tl (captures s)))
  end.
Proof.
  unfold go_to_sleep_iter. unfold bind at 1. unfold try_except.
  rewrite calibrate_run. fold (held_factor s).
  unfold bind at 1. unfold get_clk_cal_factor. cbn [clk_cal_factor].
  unfold bind at 1. unfold lift.
  destruct (sleep_ticks prec emax seconds (held_factor s)) as [ticks | e];
    [ | reflexivity].
  unfold poke, setbits.
  unfold bind at 1. rewrite write_op_state by reflexivity.
  unfold bind at 1. rewrite write_op_state by reflexivity.
  unfold bind at 1. rewrite write_op_state by reflexivity.
  unfold bind at 1. rewrite write_op_state by reflexivity.
  cbn [clk_cal_factor _pulses trace rx captures]. unfold ret.
  rewrite !land_0xFF_idem. unfold sleep_events.
  rewrite <- !app_assoc. reflexivity.
Qed.

(** The three bytes, most significant first, hold the low 24 bits. *)
Lemma sleep_bytes_value (ticks : Z) :
  Z.land (Z.shiftr ticks 16) 0xFF * 65536 +
  Z.land (Z.shiftr ticks 8) 0xFF * 256 +
  Z.land ticks 0xFF = ticks mod 2 ^ 24.
Proof.
  rewrite !land_0xFF_mod, !Z.shiftr_div_pow2 by lia.
  change (2 ^ 8) with 256. change (2 ^ 16) with 65536.
  change (2 ^ 24) with 16777216.
  Z.div_mod_to_equations. lia.
Qed.

Lemma go_to_sleep_once (prec emax : Z) (seconds : pynum) (s : state) :
  go_to_sleep prec emax 1 seconds s =
  match sleep_ticks prec emax seconds (held_factor s) with
  | Val ticks =>
      (Val (PyInt ticks),
       mkState (held_factor s) (captured s)
               (trace s ++ [EvGcCollect] ++ calibrate_events ++ sleep_events ticks)
               (tl (tl (tl (tl (rx s))))) (tl (captures s)))
  | Exc e =>
      (Exc e,
       mkState (held_factor s) (captured s)
               (trace s ++ [EvGcCollect] ++ calibrate_events)
               (rx s) (tl (captures s)))
  end.
Proof.
  unfold go_to_sleep, gc_collect, emit. unfold bind at 1.
  cbn [go_to_sleep_loop]. unfold bind at 1. rewrite go_to_sleep_iter_run.
  unfold held_factor, captured. cbn [clk_cal_factor _pulses trace rx captures].
  destruct (sleep_ticks prec emax seconds _) as [ticks | e];
    unfold ret; rewrite <- !app_assoc; reflexivity.
Qed.

Lemma forallb_whole_range (f : Z -> bool) (lo hi : Z) :
  forallb f (whole_range lo hi) = true ->
  forall k, lo <= k <= hi -> f k = true.
Proof.
  intros Hall k Hk. rewrite forallb_forall in Hall. apply Hall.
  unfold whole_range. apply in_map_iff. exists (Z.to_nat (k - lo)).
  split; [lia | ]. apply in_seq. lia.
Qed.

Lemma hour_of_seconds_rounds : forallb rounds_half_up (whole_range 0 3600) = true.
Proof. vm_compute. reflexivity. Qed.

Lemma sleep_ticks_hour (k : Z) :
  0 <= k <= 3600 ->
  sleep_ticks 53 1024 (PyInt k) 1 = Val ((1000 * k + 512) / 1024).
Proof.
  intros Hk.
  pose proof (forallb_whole_range rounds_half_up 0 3600 hour_of_seconds_rounds k Hk)
    as Hround.
  unfold rounds_half_up in Hround.
  destruct (sleep_ticks 53 1024 (PyInt k) 1) as [ticks | e]; [ | discriminate].
  apply Z.eqb_eq in Hround. rewrite Hround. reflexivity.
Qed.

(** C2, as the code has it.  The first pass of [go_to_sleep] evaluates
    [int((seconds / (1.024 * factor)) + 0.5)] in floating point, with the
    factor held after calibration.  When that gives a count, the pass
    writes its low 24 bits as three bytes, most significant first, to the
    registers at [SLEEP_TIME_ADDR], [+1] and [+2] and then sets bit 0 of
    [CTRL_0]; when it raises, the exception leaves [go_to_sleep] after the
    calibration and nothing is written.  On doubles ten seconds at factor
    1 give 10 ticks, a hundred seconds at factor 1.2 give 81, and every
    whole number of seconds up to an hour at factor 1 gives the quotient
    rounded to the nearest integer. *)
Theorem go_to_sleep_ticks (prec emax : Z) (seconds : pynum) (s : state) :
  (forall ticks,
      sleep_ticks prec emax seconds (clk_cal_factor (snd (calibrate s))) = Val ticks ->
      fst (go_to_sleep prec emax 1 seconds s) = Val (PyInt ticks) /\
      trace (snd (go_to_sleep prec emax 1 seconds s)) =
      trace s ++ [EvGcCollect] ++ calibrate_events ++
      [EvBreak 20; EvWrite [0x55];
       EvWrite [SLEEP_TIME_ADDR; 0x00; Z.land (Z.shiftr ticks 16) 0xFF; 0x00];
       EvRead None;
       EvBreak 20; EvWrite [0x55];
       EvWrite [SLEEP_TIME_ADDR + 1; 0x00; Z.land (Z.shiftr ticks 8) 0xFF; 0x00];
       EvRead None;
       EvBreak 20; EvWrite [0x55];
       EvWrite [SLEEP_TIME_ADDR + 2; 0x00; Z.land ticks 0xFF; 0x00];
       EvRead None;
       EvBreak 20; EvWrite [0x55];
       EvWrite [CTRL_0_ADDR; 0xFF; 0x01; 0x00];
       EvRead None] /\
      Z.land (Z.shiftr ticks 16) 0xFF * 65536 +
      Z.land (Z.shiftr ticks 8) 0xFF * 256 +
      Z.land ticks 0xFF = ticks mod 2 ^ 24) /\
  (forall e,
      sleep_ticks prec emax seconds (clk_cal_factor (snd (calibrate s))) = Exc e ->
      fst (go_to_sleep prec emax 1 seconds s) = Exc e /\
      trace (snd (go_to_sleep prec emax 1 seconds s)) =
      trace s ++ [EvGcCollect] ++ calibrate_events) /\
  sleep_ticks 53 1024 (PyInt 10) 1 = Val 10 /\
  sleep_ticks 53 1024 (PyInt 100) (8400 # 7000) = Val 81 /\
  (forall k,
      0 <= k <= 3600 ->
      sleep_ticks 53 1024 (PyInt k) 1 = Val ((1000 * k + 512) / 1024)).
Proof.
  rewrite calibrate_factor_eq. fold (held_factor s).
  rewrite go_to_sleep_once.
  split; [ | split; [ | split; [ | split]]].
  - intros ticks Ht. rewrite Ht. cbn [fst snd trace].
    split; [reflexivity | split; [reflexivity | apply sleep_bytes_value]].
  - intros e He. rewrite He. split; reflexivity.
  - vm_compute. reflexivity.
  - vm_compute. reflexivity.
  - exact sleep_ticks_hour.
Qed.

Lemma go_to_sleep_ticks_witness :
  let s := init_state [] [] in
  let t := init_state []
             [[(1, 1000); (0, 1000); (1, 1000); (0, 1000); (1, 9400); (0, 1000)]] in
  (sleep_ticks 53 1024 (PyInt 10) (clk_cal_factor (snd (calibrate s))) = Val 10 /\
   fst (go_to_sleep 53 1024 1 (PyInt 10) s) = Val (PyInt 10)) /\
  (sleep_ticks 53 1024 (PyInt 100) (clk_cal_factor (snd (calibrate t))) = Val 81 /\
   clk_cal_factor (snd (calibrate t)) = (8400 # 7000)%Q /\
   fst (go_to_sleep 53 1024 1 (PyInt 100) t) = Val (PyInt 81)).
Proof.
  intros s t.
  assert (H10 : sleep_ticks 53 1024 (PyInt 10) (clk_cal_factor (snd (calibrate s))) =
                Val 10) by (vm_compute; reflexivity).
  assert (H100 : sleep_ticks 53 1024 (PyInt 100) (clk_cal_factor (snd (calibrate t))) =
                 Val 81) by (vm_compute; reflexivity).
  split.
  - split; [exact H10 | ].
    exact (proj1 (proj1 (go_to_sleep_ticks 53 1024 (PyInt 10) s) 10 H10)).
  - split; [exact H100 | split; [reflexivity | ]].
    exact (proj1 (proj1 (go_to_sleep_ticks 53 1024 (PyInt 100) t) 81 H100)).
Defined.

(** C2 as stated fails on doubles.  At 72 seconds with a measured
    difference of 5625 the quotient by [1.024 * 5625 / 7000] is exactly
    87.5 and the count written is 87, not 88.  At 1208 seconds with a
    measured difference of 5285 the quotient by 1.024 times the factor
    held, taken exactly as the double it is, lies strictly between 1562 and
    1562.5, and the count written is 1563.  At -10 seconds the quotient is
    -9.765625 and the count is -9, not -10.  At [10 ** 400] seconds no
    count is computed at all: [OverflowError] leaves [go_to_sleep] with
    nothing written. *)
Lemma go_to_sleep_ticks_not_rounded :
  let slow := init_state []
                [[(1, 1000); (0, 1000); (1, 1000); (0, 1000); (1, 6625); (0, 1000)]] in
  let slower := init_state []
                  [[(1, 1000); (0, 1000); (1, 1000); (0, 1000); (1, 6285); (0, 1000)]] in
  (clk_cal_factor (snd (calibrate slow)) = (5625 # 7000)%Q /\
   (72 / (1.024 * (5625 # 7000)) == 87.5)%Q /\
   fst (go_to_sleep 53 1024 1 (PyInt 72) slow) = Val (PyInt 87)) /\
  (clk_cal_factor (snd (calibrate slower)) = (5285 # 7000)%Q /\
   (1562 < 1208 / (1.024 * number_value (factor_number 53 1024 (5285 # 7000))))%Q /\
   (1208 / (1.024 * number_value (factor_number 53 1024 (5285 # 7000))) < 1562.5)%Q /\
   fst (go_to_sleep 53 1024 1 (PyInt 1208) slower) = Val (PyInt 1563)) /\
  ((-10 / (1.024 * 1) == -9.765625)%Q /\
   fst (go_to_sleep 53 1024 1 (PyInt (-10)) (init_state [] [])) = Val (PyInt (-9))) /\
  (fst (go_to_sleep 53 1024 1 (PyInt (10 ^ 400)) (init_state [] [])) =
   Exc OverflowError /\
   trace (snd (go_to_sleep 53 1024 1 (PyInt (10 ^ 400)) (init_state [] []))) =
   [EvGcCollect] ++ calibrate_events).
Proof.
  cbv zeta. repeat split; vm_compute; reflexivity.
Qed.

(** *** The loop *)

Lemma go_to_sleep_loop_S (prec emax : Z) (n : nat) (seconds : pynum) (s : state) :
  go_to_sleep_loop prec emax (S n) seconds s =
  match go_to_sleep_iter prec emax seconds s with
  | (Val t, s1) => go_to_sleep_loop prec emax n (PyInt t) s1
  | (Exc e, s1) => (Exc e, s1)
  end.
Proof. reflexivity. Qed.





(** * Further properties of the driver *)

(** ** Register operations on any address and operand *)

Lemma lnot_land_0xFF_mod (mask : Z) :
  Z.land (Z.lnot mask) 0xFF = 255 - mask mod 256.
Proof.
  rewrite land_0xFF_mod. unfold Z.lnot, Z.pred.
  Z.div_mod_to_equations. lia.
Qed.

Lemma not_byte_is_byte (v : Z) : ~ (0 <= v < 256) -> is_byte v = false.
Proof.
  intros Hv. destruct (is_byte v) eqn:Hb; [ | reflexivity].
  apply is_byte_iff in Hb. contradiction.
Qed.

Lemma write_op_bad_address (address and_val or_val xor_val : Z) (s : state) :
  is_byte address = false ->
  exists msg,
    (_magic address and_val or_val xor_val None ;;; ret tt) s =
    (Exc (ValueError msg), add_trace s [EvBreak 20; EvWrite [0x55]]).
Proof.
  intros Ha.
  destruct (_magic_bad_address address and_val or_val xor_val None s Ha) as [msg Hrun].
  exists msg. unfold bind. rewrite Hrun. reflexivity.
Qed.

(** X1.  An address outside [0, 255] makes each of the five register
    operations raise [ValueError]: the break and the synchronisation byte
    have gone out by then, the frame has not, and no reply is read. *)
Theorem register_ops_bad_address (address operand : Z) (s : state) :
  ~ (0 <= address < 256) ->
  exists msg,
    poke address operand s =
    (Exc (ValueError msg), add_trace s [EvBreak 20; EvWrite [0x55]]) /\
    peek address s =
    (Exc (ValueError msg), add_trace s [EvBreak 20; EvWrite [0x55]]) /\
    setbits address operand s =
    (Exc (ValueError msg), add_trace s [EvBreak 20; EvWrite [0x55]]) /\
    clearbits address operand s =
    (Exc (ValueError msg), add_trace s [EvBreak 20; EvWrite [0x55]]) /\
    togglebits address operand s =
    (Exc (ValueError msg), add_trace s [EvBreak 20; EvWrite [0x55]]) /\
    rx (add_trace s [EvBreak 20; EvWrite [0x55]]) = rx s.
Proof.
  intros Ha. apply not_byte_is_byte in Ha.
  exists "bytes must be in range(0, 256)"%string.
  unfold poke, peek, setbits, clearbits, togglebits, bind, _magic, _start, _send,
    bind, lift, py_bytes, uart_sendbreak, uart_write, emit, add_trace.
  cbn [forallb]. rewrite Ha. cbn.
  rewrite <- !app_assoc. repeat split; reflexivity.
Qed.

Lemma register_ops_bad_address_witness :
  ~ (0 <= 0x145 < 256) /\
  exists msg,
    poke 0x145 7 (init_state [] []) =
    (Exc (ValueError msg),
     mkState 1 [] [EvBreak 20; EvWrite [0x55]] [] []).
Proof.
  assert (Ha : ~ (0 <= 0x145 < 256)) by lia.
  split; [exact Ha | ].
  destruct (register_ops_bad_address 0x145 7 (init_state [] []) Ha)
    as (msg & Hpoke & _).
  exists msg. exact Hpoke.
Defined.

(** X2.  With an 8-bit address the register operations accept any integer
    operand and never raise: only its low eight bits travel.  [poke],
    [setbits] and [togglebits] send [operand mod 256]; [clearbits] sends
    the AND byte [255 - mask mod 256]. *)
Theorem register_ops_any_operand (address operand : Z) (s : state) :
  0 <= address < 256 ->
  poke address operand s =
  (Val tt,
   mkState (clk_cal_factor s) (_pulses s)
           (trace s ++ [EvBreak 20; EvWrite [0x55];
                        EvWrite [address; 0x00; operand mod 256; 0x00]; EvRead None])
           (tl (rx s)) (captures s)) /\
  setbits address operand s =
  (Val tt,
   mkState (clk_cal_factor s) (_pulses s)
           (trace s ++ [EvBreak 20; EvWrite [0x55];
                        EvWrite [address; 0xFF; operand mod 256; 0x00]; EvRead None])
           (tl (rx s)) (captures s)) /\
  clearbits address operand s =
  (Val tt,
   mkState (clk_cal_factor s) (_pulses s)
           (trace s ++ [EvBreak 20; EvWrite [0x55];
                        EvWrite [address; 255 - operand mod 256; 0x00; 0x00];
                        EvRead None])
           (tl (rx s)) (captures s)) /\
  togglebits address operand s =
  (Val tt,
   mkState (clk_cal_factor s) (_pulses s)
           (trace s ++ [EvBreak 20; EvWrite [0x55];
                        EvWrite [address; 0xFF; 0x00; operand mod 256]; EvRead None])
           (tl (rx s)) (captures s)).
Proof.
  intros Ha. apply is_byte_iff in Ha.
  unfold poke, setbits, clearbits, togglebits.
  rewrite !write_op_state by exact Ha.
  rewrite lnot_land_0xFF_mod, !land_0xFF_mod.
  repeat split; reflexivity.
Qed.

Lemma register_ops_any_operand_witness :
  0 <= 0x41 < 256 /\
  trace (snd (poke 0x41 524 (init_state [] []))) =
  [EvBreak 20; EvWrite [0x55]; EvWrite [0x41; 0x00; 12; 0x00]; EvRead None].
Proof.
  assert (Ha : 0 <= 0x41 < 256) by lia.
  split; [exact Ha | ].
  rewrite (proj1 (register_ops_any_operand 0x41 524 (init_state [] []) Ha)).
  reflexivity.
Defined.

(** ** Replies that cannot be indexed *)

Lemma peek_state (address : Z) (s : state) :
  is_byte address = true ->
  peek address s =
  (subscript_reply (fst (next_rx s)) 6,
   mkState (clk_cal_factor s) (_pulses s)
           (trace s ++ command address 0xFF 0x00 0x00 ++ [EvRead None])
           (tl (rx s)) (captures s)).
Proof.
  intros Hb. unfold peek, bind. rewrite _magic_run by exact Hb.
  unfold read_reply, uart_read, lift, add_trace, next_rx.
  cbn [clk_cal_factor _pulses trace rx captures].
  destruct (rx s) as [| r rest]; cbn [fst snd tl]; rewrite <- app_assoc;
    destruct (subscript_reply _ 6); reflexivity.
Qed.

(** X3.  [peek] does not guard the subscript: when the read delivers
    nothing it raises [TypeError], when it delivers fewer than seven bytes
    it raises [IndexError]; the command has been sent and the reply
    consumed either way, and [get_wake_status] passes the exception on
    without returning a dictionary. *)
Theorem peek_unusable_reply (address : Z) (s : state) (echo : list Z) :
  0 <= address < 256 ->
  (fst (next_rx s) = None ->
   fst (peek address s) = Exc TypeError /\
   fst (get_wake_status s) = Exc TypeError) /\
  (fst (next_rx s) = Some echo ->
   (List.length echo < 7)%nat ->
   fst (peek address s) = Exc IndexError /\
   fst (get_wake_status s) = Exc IndexError) /\
  trace (snd (peek address s)) =
  trace s ++ [EvBreak 20; EvWrite [0x55];
              EvWrite [address; 0xFF; 0x00; 0x00]; EvRead None] /\
  rx (snd (peek address s)) = tl (rx s).
Proof.
  intros Ha. apply is_byte_iff in Ha.
  unfold get_wake_status, bind.
  rewrite (peek_state address s Ha), (peek_state WAKE_STATUS_ADDR s eq_refl).
  cbn [fst snd trace rx].
  split; [ | split; [ | split; reflexivity]].
  - intros Hnone. rewrite Hnone. split; reflexivity.
  - intros Hsome Hlen. rewrite Hsome. unfold subscript_reply.
    assert (Hnth : nth_error echo 6 = None) by (apply nth_error_None; lia).
    rewrite Hnth. split; reflexivity.
Qed.

Lemma peek_unusable_reply_witness :
  let quiet := init_state [] [] in
  let short := init_state [Some [0x00; 0x55; 0x40; 0xFF; 0x00; 0x00]] [] in
  0 <= 0x40 < 256 /\
  (fst (next_rx quiet) = None /\ fst (get_wake_status quiet) = Exc TypeError) /\
  (fst (next_rx short) = Some [0x00; 0x55; 0x40; 0xFF; 0x00; 0x00] /\
   (List.length [0x00; 0x55; 0x40; 0xFF; 0x00; 0x00] < 7)%nat /\
   fst (peek 0x40 short) = Exc IndexError).
Proof.
  intros quiet short.
  assert (Ha : 0 <= 0x40 < 256) by lia.
  assert (Hlen : (List.length [0x00; 0x55; 0x40; 0xFF; 0x00; 0x00] < 7)%nat)
    by (cbn; lia).
  split; [exact Ha | split].
  - split; [reflexivity | ].
    exact (proj2 (proj1 (peek_unusable_reply 0x40 quiet [] Ha) eq_refl)).
  - split; [reflexivity | split; [exact Hlen | ]].
    exact (proj1 (proj1 (proj2 (peek_unusable_reply 0x40 short _ Ha)) eq_refl Hlen)).
Defined.

(** ** Wake causes *)

Lemma wake_field_value (wake_r : Z) :
  wake (decode_wake_status wake_r) =
  Z.lor (Z.shiftl (Z.b2z (Z.testbit wake_r 4)) 4)
        (Z.shiftl (Z.b2z (Z.testbit wake_r 5)) 5).
Proof.
  unfold decode_wake_status. cbn [wake].
  rewrite Z.land_lor_distr_r.
  change TIMER_WAKE with (2 ^ 4). change POWER_ON_WAKE with (2 ^ 5).
  rewrite !land_pow2 by lia. reflexivity.
Qed.

Lemma land_1 (b : Z) : Z.land b 0x01 = Z.b2z (Z.testbit b 0).
Proof.
  change 0x01 with (2 ^ 0). rewrite land_pow2 by lia. apply Z.shiftl_0_r.
Qed.

(** X4.  The [wake] entry of the dictionary takes one of four values.  It
    equals [PIN_WAKE] exactly when status bits 4 and 5 are both clear,
    [TIMER_WAKE] exactly when only bit 4 is set, [POWER_ON_WAKE] exactly
    when only bit 5 is set; with both set it is [TIMER_WAKE |
    POWER_ON_WAKE], which equals none of the three constants.  The pin
    entries are 0 or 1, whatever the other bits of the status are. *)
Theorem wake_cause_classification (wake_r : Z) :
  (wake (decode_wake_status wake_r) = PIN_WAKE <->
   Z.testbit wake_r 4 = false /\ Z.testbit wake_r 5 = false) /\
  (wake (decode_wake_status wake_r) = TIMER_WAKE <->
   Z.testbit wake_r 4 = true /\ Z.testbit wake_r 5 = false) /\
  (wake (decode_wake_status wake_r) = POWER_ON_WAKE <->
   Z.testbit wake_r 4 = false /\ Z.testbit wake_r 5 = true) /\
  (wake (decode_wake_status wake_r) = 48 <->
   Z.testbit wake_r 4 = true /\ Z.testbit wake_r 5 = true) /\
  (P10 (decode_wake_status wake_r) = 0 \/ P10 (decode_wake_status wake_r) = 1) /\
  (P17 (decode_wake_status wake_r) = 0 \/ P17 (decode_wake_status wake_r) = 1) /\
  (P18 (decode_wake_status wake_r) = 0 \/ P18 (decode_wake_status wake_r) = 1).
Proof.
  rewrite wake_field_value.
  unfold decode_wake_status. cbn [P10 P17 P18].
  rewrite (land_1 wake_r).
  change (Z.land wake_r 0x02) with (Z.land wake_r (2 ^ 1)).
  change (Z.land wake_r 0x08) with (Z.land wake_r (2 ^ 3)).
  rewrite (extract_bit wake_r 1), (extract_bit wake_r 3) by lia.
  destruct (Z.testbit wake_r 0), (Z.testbit wake_r 1), (Z.testbit wake_r 3),
    (Z.testbit wake_r 4), (Z.testbit wake_r 5);
    cbn; repeat split; intros; auto; try discriminate;
    match goal with H : _ /\ _ |- _ => destruct H; discriminate end.
Qed.

(** ** Pin masks as sets *)

Lemma land_PIN_MASK_values (x : Z) :
  Z.land x PIN_MASK = 0 \/ Z.land x PIN_MASK = 2 \/
  Z.land x PIN_MASK = 8 \/ Z.land x PIN_MASK = 10.
Proof.
  change PIN_MASK with (Z.lor (2 ^ 1) (2 ^ 3)).
  rewrite Z.land_lor_distr_r, !land_pow2 by lia.
  destruct (Z.testbit x 1), (Z.testbit x 3); cbn; auto.
Qed.

Lemma valid_pin_dec (l : list string) :
  {Forall (fun pin => In pin valid_pins) l} +
  {Exists (fun pin => ~ In pin valid_pins) l}.
Proof.
  apply Forall_Exists_dec. intros pin. apply in_dec. apply string_dec.
Qed.

(** X5.  [_create_pin_mask] returns a mask exactly when every identifier
    of its input is valid; otherwise it raises.  A returned mask is one of
    0, 2, 8 and 10: bits 0 and 2 are never set. *)
Theorem create_pin_mask_succeeds_iff (pins : pins_arg) :
  ((exists mask, _create_pin_mask pins = Val mask) <->
   Forall (fun pin => In pin valid_pins) (pin_ids pins)) /\
  (forall mask,
      _create_pin_mask pins = Val mask ->
      mask = 0 \/ mask = 2 \/ mask = 8 \/ mask = 10).
Proof.
  assert (Hiff : (exists mask, _create_pin_mask pins = Val mask) <->
                 Forall (fun pin => In pin valid_pins) (pin_ids pins)).
  { split.
    - intros [mask Hrun].
      destruct (valid_pin_dec (pin_ids pins)) as [Hv | Hbad]; [exact Hv | ].
      destruct (_create_pin_mask_invalid pins Hbad) as (bad & _ & _ & Hexc).
      congruence.
    - intros Hv. eexists. apply _create_pin_mask_valid. exact Hv. }
  split; [exact Hiff | ].
  intros mask Hrun.
  assert (Hv : Forall (fun pin => In pin valid_pins) (pin_ids pins)).
  { apply Hiff. exists mask. exact Hrun. }
  rewrite _create_pin_mask_valid in Hrun by exact Hv.
  inversion Hrun. apply land_PIN_MASK_values.
Qed.

Lemma create_pin_mask_succeeds_iff_witness :
  _create_pin_mask (PinSeq ["G31"; "P10"; "G30"]%string) = Val 10 /\
  (10 = 0 \/ 10 = 2 \/ 10 = 8 \/ 10 = 10).
Proof.
  split; [reflexivity | ].
  exact (proj2 (create_pin_mask_succeeds_iff (PinSeq ["G31"; "P10"; "G30"]%string))
               10 eq_refl).
Defined.

Lemma or_of_pins_app (l l' : list string) :
  or_of_pins (l ++ l') = Z.lor (or_of_pins l) (or_of_pins l').
Proof.
  induction l as [| pin l IH]; cbn [app or_of_pins fold_right].
  - rewrite Z.lor_0_l. reflexivity.
  - fold (or_of_pins (l ++ l')). fold (or_of_pins l).
    rewrite IH, Z.lor_assoc. reflexivity.
Qed.

(** X6.  Translating the concatenation of two valid collections gives the
    OR of their two masks. *)
Theorem create_pin_mask_app (l l' : list string) :
  Forall (fun pin => In pin valid_pins) l ->
  Forall (fun pin => In pin valid_pins) l' ->
  exists mask mask',
    _create_pin_mask (PinSeq l) = Val mask /\
    _create_pin_mask (PinSeq l') = Val mask' /\
    _create_pin_mask (PinSeq (l ++ l')) = Val (Z.lor mask mask').
Proof.
  intros Hl Hl'.
  exists (Z.land (or_of_pins l) PIN_MASK), (Z.land (or_of_pins l') PIN_MASK).
  split; [apply (_create_pin_mask_valid (PinSeq l)); exact Hl | ].
  split; [apply (_create_pin_mask_valid (PinSeq l')); exact Hl' | ].
  rewrite (_create_pin_mask_valid (PinSeq (l ++ l'))).
  - cbn [pin_ids]. rewrite or_of_pins_app, Z.land_lor_distr_l. reflexivity.
  - cbn [pin_ids]. apply Forall_app. split; assumption.
Qed.

Lemma create_pin_mask_app_witness :
  Forall (fun pin => In pin valid_pins) ["P17"]%string /\
  Forall (fun pin => In pin valid_pins) ["G30"; "P10"]%string /\
  _create_pin_mask (PinSeq ["P17"; "G30"; "P10"]%string) = Val (Z.lor 2 8).
Proof.
  assert (H1 : Forall (fun pin => In pin valid_pins) ["P17"]%string).
  { apply Forall_cons; [cbn; auto 10 | apply Forall_nil]. }
  assert (H2 : Forall (fun pin => In pin valid_pins) ["G30"; "P10"]%string).
  { apply Forall_cons; [cbn; auto 10 | ].
    apply Forall_cons; [cbn; auto 10 | apply Forall_nil]. }
  split; [exact H1 | split; [exact H2 | ]].
  destruct (create_pin_mask_app ["P17"]%string ["G30"; "P10"]%string H1 H2)
    as (m & m' & Hm & Hm' & Hrun).
  cbn [app] in Hrun. rewrite Hrun. inversion Hm. inversion Hm'. reflexivity.
Defined.

(** X7.  The identifiers are inspected in order and the first invalid one
    is the one the [ValueError] names; what follows it is never looked
    at. *)
Theorem create_pin_mask_first_invalid (valid : list string) (bad : string)
        (rest : list string) :
  Forall (fun pin => In pin valid_pins) valid ->
  ~ In bad valid_pins ->
  _create_pin_mask (PinSeq (valid ++ bad :: rest)) =
  Exc (ValueError ("Invalid Pin specified: " ++ bad)).
Proof.
  intros Hv Hbad. unfold _create_pin_mask.
  assert (Hrun : forall mask,
             add_pins mask (valid ++ bad :: rest) =
             Exc (ValueError (invalid_pin_msg bad))).
  { induction Hv as [| pin l Hpin _ IH]; intros mask; cbn [app add_pins].
    - rewrite _add_to_pin_mask_spec.
      apply pin_position_invalid in Hbad. rewrite Hbad. reflexivity.
    - rewrite _add_to_pin_mask_spec.
      apply pin_position_valid in Hpin.
      destruct (pin_position pin) as [k |]; [ | congruence].
      cbn [obind]. apply IH. }
  rewrite Hrun. reflexivity.
Qed.

Lemma create_pin_mask_first_invalid_witness :
  Forall (fun pin => In pin valid_pins) ["P17"]%string /\
  ~ In "P11"%string valid_pins /\
  _create_pin_mask (PinSeq ["P17"; "P11"; "P12"]%string) =
  Exc (ValueError "Invalid Pin specified: P11").
Proof.
  assert (Hv : Forall (fun pin => In pin valid_pins) ["P17"]%string).
  { apply Forall_cons; [cbn; auto 10 | apply Forall_nil]. }
  assert (Hbad : ~ In "P11"%string valid_pins).
  { cbn. intuition discriminate. }
  split; [exact Hv | split; [exact Hbad | ]].
  exact (create_pin_mask_first_invalid ["P17"]%string "P11" ["P12"]%string Hv Hbad).
Defined.

(** ** Pin operations on the wire *)

Lemma pin_mask_is_byte (x : Z) : Z.land (Z.land x PIN_MASK) 0xFF = Z.land x PIN_MASK.
Proof.
  apply land_0xFF_byte.
  destruct (land_PIN_MASK_values x) as [-> | [-> | [-> | ->]]]; lia.
Qed.

Lemma setbits_state (address mask : Z) (s : state) :
  is_byte address = true ->
  setbits address mask s =
  (Val tt,
   mkState (clk_cal_factor s) (_pulses s)
           (trace s ++ command address 0xFF (Z.land mask 0xFF) 0x00 ++ [EvRead None])
           (tl (rx s)) (captures s)).
Proof. intros Ha. unfold setbits. rewrite write_op_state by exact Ha. reflexivity. Qed.

Lemma clearbits_state (address mask : Z) (s : state) :
  is_byte address = true ->
  clearbits address mask s =
  (Val tt,
   mkState (clk_cal_factor s) (_pulses s)
           (trace s ++ command address (255 - mask mod 256) 0x00 0x00 ++ [EvRead None])
           (tl (rx s)) (captures s)).
Proof.
  intros Ha. unfold clearbits. rewrite write_op_state by exact Ha.
  rewrite lnot_land_0xFF_mod. reflexivity.
Qed.

(** The state a successful write command leaves. *)
Lemma pin_op_enable (address : Z) (pins : pins_arg) (s : state) :
  is_byte address = true ->
  Forall (fun pin => In pin valid_pins) (pin_ids pins) ->
  (mask <- lift (_create_pin_mask pins) ;; setbits address mask) s =
  (Val tt,
   mkState (clk_cal_factor s) (_pulses s)
           (trace s ++ command address 0xFF (Z.land (or_of_pins (pin_ids pins)) PIN_MASK) 0x00
                   ++ [EvRead None])
           (tl (rx s)) (captures s)).
Proof.
  intros Ha Hv. unfold bind, lift. rewrite _create_pin_mask_valid by exact Hv.
  rewrite setbits_state by exact Ha. rewrite pin_mask_is_byte. reflexivity.
Qed.

Lemma pin_op_disable (address : Z) (pins : pins_arg) (s : state) :
  is_byte address = true ->
  Forall (fun pin => In pin valid_pins) (pin_ids pins) ->
  (mask <- lift (_create_pin_mask pins) ;; clearbits address mask) s =
  (Val tt,
   mkState (clk_cal_factor s) (_pulses s)
           (trace s ++ command address (255 - Z.land (or_of_pins (pin_ids pins)) PIN_MASK)
                               0x00 0x00
                   ++ [EvRead None])
           (tl (rx s)) (captures s)).
Proof.
  intros Ha Hv. unfold bind, lift. rewrite _create_pin_mask_valid by exact Hv.
  rewrite clearbits_state by exact Ha.
  rewrite <- land_0xFF_mod, pin_mask_is_byte. reflexivity.
Qed.

(** X8.  With valid identifiers, whose mask is [m], the six pin operations
    succeed and send one frame each: the enabling ones [addr, 0xFF, m,
    0x00], the disabling ones [addr, 255 - m, 0x00, 0x00], with [addr] the
    pull-up register (0x09) for the pull-ups, 0x1A for wake on a rising
    and 0x1B for wake on a falling edge. *)
Theorem pin_ops_frames (pins : pins_arg) (s : state) :
  Forall (fun pin => In pin valid_pins) (pin_ids pins) ->
  exists m,
    _create_pin_mask pins = Val m /\
    (forall op address,
        In (op, address)
           [(enable_pullups, 0x09); (enable_wake_on_raise, 0x1A);
            (enable_wake_on_fall, 0x1B)] ->
        op pins s =
        (Val tt,
         mkState (clk_cal_factor s) (_pulses s)
                 (trace s ++ [EvBreak 20; EvWrite [0x55];
                              EvWrite [address; 0xFF; m; 0x00]; EvRead None])
                 (tl (rx s)) (captures s))) /\
    (forall op address,
        In (op, address)
           [(disable_pullups, 0x09); (disable_wake_on_raise, 0x1A);
            (disable_wake_on_fall, 0x1B)] ->
        op pins s =
        (Val tt,
         mkState (clk_cal_factor s) (_pulses s)
                 (trace s ++ [EvBreak 20; EvWrite [0x55];
                              EvWrite [address; 255 - m; 0x00; 0x00]; EvRead None])
                 (tl (rx s)) (captures s))).
Proof.
  intros Hv. exists (Z.land (or_of_pins (pin_ids pins)) PIN_MASK).
  split; [apply _create_pin_mask_valid; exact Hv | ].
  split; intros op address Hin; cbn [In] in Hin;
    destruct Hin as [Heq | [Heq | [Heq | []]]]; inversion Heq; subst op address.
  - exact (pin_op_enable WPUA_ADDR pins s eq_refl Hv).
  - exact (pin_op_enable IOCAP_ADDR pins s eq_refl Hv).
  - exact (pin_op_enable IOCAN_ADDR pins s eq_refl Hv).
  - exact (pin_op_disable WPUA_ADDR pins s eq_refl Hv).
  - exact (pin_op_disable IOCAP_ADDR pins s eq_refl Hv).
  - exact (pin_op_disable IOCAN_ADDR pins s eq_refl Hv).
Qed.

Lemma pin_ops_frames_witness :
  Forall (fun pin => In pin valid_pins) (pin_ids (PinSeq ["P17"; "P18"]%string)) /\
  trace (snd (disable_wake_on_fall (PinSeq ["P17"; "P18"]%string) (init_state [] []))) =
  [EvBreak 20; EvWrite [0x55]; EvWrite [0x1B; 0xF5; 0x00; 0x00]; EvRead None].
Proof.
  assert (Hv : Forall (fun pin => In pin valid_pins)
                      (pin_ids (PinSeq ["P17"; "P18"]%string))).
  { cbn [pin_ids].
    apply Forall_cons; [cbn; auto 10 | ].
    apply Forall_cons; [cbn; auto 10 | apply Forall_nil]. }
  split; [exact Hv | ].
  destruct (pin_ops_frames (PinSeq ["P17"; "P18"]%string) (init_state [] []) Hv)
    as (m & Hm & _ & Hdis).
  rewrite (Hdis disable_wake_on_fall 0x1B) by (cbn; auto).
  inversion Hm. reflexivity.
Defined.

Lemma or_of_comm_pins (l : list string) :
  Forall (fun pin => pin = "P10"%string \/ pin = "G17"%string) l ->
  Z.land (or_of_pins l) PIN_MASK = 0.
Proof.
  intros Hl.
  assert (Hor : or_of_pins l = 0 \/ or_of_pins l = 1).
  { induction Hl as [| pin l Hpin _ IH]; [left; reflexivity | ].
    cbn [or_of_pins fold_right]. fold (or_of_pins l).
    assert (Hbit : pin_bit pin = 1) by (destruct Hpin; subst pin; reflexivity).
    rewrite Hbit. destruct IH as [-> | ->]; right; reflexivity. }
  destruct Hor as [-> | ->]; reflexivity.
Qed.

Lemma comm_pins_valid (l : list string) :
  Forall (fun pin => pin = "P10"%string \/ pin = "G17"%string) l ->
  Forall (fun pin => In pin valid_pins) l.
Proof.
  apply Forall_impl. intros pin [-> | ->]; cbn; auto.
Qed.

(** X9.  An input that names only the communication pin (P10 or G17), or
    nothing at all, has mask 0: each of the six pin operations then sends
    [addr, 0xFF, 0x00, 0x00] and leaves the driver exactly where a [peek]
    of the same register would, so nothing is changed on the chip. *)
Theorem pin_ops_on_comm_pin (pins : pins_arg) (s : state) :
  Forall (fun pin => pin = "P10"%string \/ pin = "G17"%string) (pin_ids pins) ->
  _create_pin_mask pins = Val 0 /\
  enable_pullups pins s = (Val tt, snd (peek WPUA_ADDR s)) /\
  disable_pullups pins s = (Val tt, snd (peek WPUA_ADDR s)) /\
  enable_wake_on_raise pins s = (Val tt, snd (peek IOCAP_ADDR s)) /\
  disable_wake_on_raise pins s = (Val tt, snd (peek IOCAP_ADDR s)) /\
  enable_wake_on_fall pins s = (Val tt, snd (peek IOCAN_ADDR s)) /\
  disable_wake_on_fall pins s = (Val tt, snd (peek IOCAN_ADDR s)).
Proof.
  intros Hc.
  pose proof (comm_pins_valid _ Hc) as Hv.
  pose proof (or_of_comm_pins _ Hc) as H0.
  split; [rewrite _create_pin_mask_valid by exact Hv; rewrite H0; reflexivity | ].
  unfold enable_pullups, disable_pullups, enable_wake_on_raise,
    disable_wake_on_raise, enable_wake_on_fall, disable_wake_on_fall.
  rewrite !pin_op_enable, !pin_op_disable by (reflexivity || exact Hv).
  rewrite !peek_state by reflexivity. rewrite H0.
  repeat split; reflexivity.
Qed.

Lemma pin_ops_on_comm_pin_witness :
  Forall (fun pin => pin = "P10"%string \/ pin = "G17"%string)
         (pin_ids (PinStr "P10")) /\
  trace (snd (enable_pullups (PinStr "P10") (init_state [] []))) =
  [EvBreak 20; EvWrite [0x55]; EvWrite [0x09; 0xFF; 0x00; 0x00]; EvRead None].
Proof.
  assert (Hc : Forall (fun pin => pin = "P10"%string \/ pin = "G17"%string)
                      (pin_ids (PinStr "P10"))).
  { cbn [pin_ids]. apply Forall_cons; [left; reflexivity | apply Forall_nil]. }
  split; [exact Hc | ].
  rewrite (proj1 (proj2 (pin_ops_on_comm_pin (PinStr "P10") (init_state [] []) Hc))).
  reflexivity.
Defined.

(** ** What calibration guarantees *)

(** X10.  [calibrate] always returns normally, whatever was captured.  It
    leaves a factor between 0.75 and 1.25, stores the capture in
    [_pulses], and on the line does this and nothing else: it sends the
    frame [0x45, 0xFF, 0x04, 0x00] without reading a reply, releases the
    UART, captures pulses on P10 with a timeout of 50, and opens the UART
    again; replies that were pending stay pending. *)
Theorem calibrate_always_in_range (s : state) :
  fst (calibrate s) = Val tt /\
  (0.75 <= clk_cal_factor (snd (calibrate s)) /\
   clk_cal_factor (snd (calibrate s)) <= 1.25)%Q /\
  _pulses (snd (calibrate s)) = captured s /\
  trace (snd (calibrate s)) =
  trace s ++ [EvBreak 20; EvWrite [0x55]; EvWrite [0x45; 0xFF; 0x04; 0x00];
              EvUartDeinit; EvPulsesGet "P10" 50; EvUartInit 10000 "P10"] /\
  rx (snd (calibrate s)) = rx s /\
  captures (snd (calibrate s)) = tl (captures s).
Proof.
  rewrite calibrate_run. cbn [fst snd clk_cal_factor _pulses trace rx captures].
  split; [reflexivity | ].
  split; [apply accept_factor_range | ].
  repeat split; reflexivity.
Qed.

Lemma ratio_to_period (d : Z) :
  (inject_Z d / inject_Z EXP_RTC_PERIOD == d # 7000)%Q.
Proof. unfold Qeq, Qdiv, Qmult, Qinv, inject_Z. cbn. lia. Qed.

Lemma measured_in_range (d : Z) :
  out_of_range (inject_Z d / inject_Z EXP_RTC_PERIOD) = false <-> 5250 <= d <= 8750.
Proof.
  rewrite out_of_range_false, ratio_to_period. unfold Qle. cbn. lia.
Qed.

(** X11.  In terms of the captured durations: with [d = pulses[4][1] -
    pulses[1][1]], the measurement is accepted exactly when [5250 <= d <=
    8750], and the factor is then [d / 7000]; for any other [d], negative
    ones and zero included, the factor becomes 1. *)
Theorem calibrate_accepts_5250_to_8750 (s : state) (hi lo : Z * Z) :
  nth_error (captured s) 4 = Some hi ->
  nth_error (captured s) 1 = Some lo ->
  (5250 <= snd hi - snd lo <= 8750 ->
   clk_cal_factor (snd (calibrate s)) =
   (inject_Z (snd hi - snd lo) / inject_Z EXP_RTC_PERIOD)%Q /\
   (clk_cal_factor (snd (calibrate s)) == (snd hi - snd lo) # 7000)%Q) /\
  (snd hi - snd lo < 5250 \/ 8750 < snd hi - snd lo ->
   clk_cal_factor (snd (calibrate s)) = 1%Q).
Proof.
  intros H4 H1.
  rewrite calibrate_factor_eq, (candidate_factor_measured _ _ hi lo H4 H1).
  unfold accept_factor.
  destruct (out_of_range (inject_Z (snd hi - snd lo) / inject_Z EXP_RTC_PERIOD))
    eqn:Hr.
  - split; [ | reflexivity].
    intros Hd. apply measured_in_range in Hd. congruence.
  - split.
    + intros _. split; [reflexivity | apply ratio_to_period].
    + intros Hd. apply measured_in_range in Hr. lia.
Qed.

Lemma calibrate_accepts_5250_to_8750_witness :
  let slow := init_state []
                [[(1, 1000); (0, 1000); (1, 1000); (0, 1000); (1, 9750); (0, 1000)]] in
  let back := init_state []
                [[(1, 1000); (0, 8000); (1, 1000); (0, 1000); (1, 1000); (0, 1000)]] in
  (nth_error (captured slow) 4 = Some (1, 9750) /\
   nth_error (captured slow) 1 = Some (0, 1000) /\
   5250 <= 9750 - 1000 <= 8750 /\
   (clk_cal_factor (snd (calibrate slow)) == 1.25)%Q) /\
  (nth_error (captured back) 4 = Some (1, 1000) /\
   nth_error (captured back) 1 = Some (0, 8000) /\
   1000 - 8000 < 5250 /\
   clk_cal_factor (snd (calibrate back)) = 1%Q).
Proof.
  intros slow back. split.
  - split; [reflexivity | split; [reflexivity | split; [lia | ]]].
    rewrite (proj2 (proj1 (calibrate_accepts_5250_to_8750 slow (1, 9750) (0, 1000)
                             eq_refl eq_refl) ltac:(cbn; lia))).
    reflexivity.
  - split; [reflexivity | split; [reflexivity | split; [lia | ]]].
    exact (proj2 (calibrate_accepts_5250_to_8750 back (1, 1000) (0, 8000)
                    eq_refl eq_refl) ltac:(cbn; lia)).
Defined.

(** X12.  A capture of fewer than five pulses does not protect a factor
    that is itself out of range: the [IndexError] is swallowed, the range
    check still runs, and a prior factor above 1.25 or below 0.75 is
    replaced by 1. *)
Theorem calibrate_short_capture_resets (s : state) :
  (List.length (captured s) < 5)%nat ->
  (1.25 < clk_cal_factor s \/ clk_cal_factor s < 0.75)%Q ->
  fst (calibrate s) = Val tt /\
  clk_cal_factor (snd (calibrate s)) = 1%Q.
Proof.
  intros Hlen Hout.
  split; [rewrite calibrate_run; reflexivity | ].
  rewrite calibrate_factor_eq, candidate_factor_short by exact Hlen.
  unfold accept_factor. apply out_of_range_true in Hout. rewrite Hout. reflexivity.
Qed.

Lemma calibrate_short_capture_resets_witness :
  let s := mkState 2 [] [] [] [[(1, 1000); (0, 1000)]] in
  (List.length (captured s) < 5)%nat /\
  (1.25 < clk_cal_factor s)%Q /\
  clk_cal_factor (snd (calibrate s)) = 1%Q.
Proof.
  intros s.
  assert (Hlen : (List.length (captured s) < 5)%nat) by (cbn; lia).
  assert (Hout : (1.25 < clk_cal_factor s)%Q) by reflexivity.
  split; [exact Hlen | split; [exact Hout | ]].
  exact (proj2 (calibrate_short_capture_resets s Hlen (or_introl Hout))).
Defined.

(** ** The battery limit, millivolt by millivolt *)

Lemma battery_limits_round :
  forallb battery_limit_rounds (whole_range 1000 5000) = true.
Proof. vm_compute. reflexivity. Qed.

(** X13.  On doubles, for every voltage from 1.000 V to 5.000 V written
    with three decimals, [set_min_voltage_limit] returns normally and the
    register value is [524.288 / volts] rounded to the nearest integer.
    From 2.053 V upward that value is at most 255 and is the byte that
    reaches the chip; at 2.052 V and below it is 256 or more, so the byte
    that reaches the chip is only its remainder modulo 256. *)
Theorem set_min_voltage_limit_millivolts (k : Z) (s : state) :
  1000 <= k <= 5000 ->
  exists r : Z,
    min_voltage_register 53 1024 (PyFloat (float_literal 53 1024 k 3)) = Val r /\
    2 * r * k - k <= 1048576 < 2 * r * k + k /\
    set_min_voltage_limit 53 1024 (PyFloat (float_literal 53 1024 k 3)) s =
    (Val tt,
     mkState (clk_cal_factor s) (_pulses s)
             (trace s ++ [EvBreak 20; EvWrite [0x55];
                          EvWrite [0x41; 0x00; r mod 256; 0x00]; EvRead None])
             (tl (rx s)) (captures s)) /\
    (2053 <= k -> 0 <= r <= 255 /\ r mod 256 = r) /\
    (k <= 2052 -> 256 <= r).
Proof.
  intros Hk.
  pose proof (forallb_whole_range battery_limit_rounds 1000 5000
                battery_limits_round k Hk) as Hround.
  unfold battery_limit_rounds in Hround.
  destruct (min_voltage_register 53 1024 (PyFloat (float_literal 53 1024 k 3)))
    as [r | e] eqn:Hr; [ | discriminate].
  apply Z.eqb_eq in Hround. exists r.
  assert (Hdiv : 1048576 + k = 2 * k * r + (1048576 + k) mod (2 * k)).
  { rewrite Hround. apply Z.div_mod. lia. }
  pose proof (Z.mod_pos_bound (1048576 + k) (2 * k) ltac:(lia)) as Hmod.
  split; [reflexivity | ].
  split; [nia | ].
  split.
  { rewrite set_min_voltage_limit_run, Hr, land_0xFF_mod. reflexivity. }
  split.
  - intros Hbig.
    assert (Hrange : 0 <= r <= 255) by nia.
    split; [exact Hrange | apply Z.mod_small; lia].
  - intros Hsmall. nia.
Qed.

Lemma set_min_voltage_limit_millivolts_witness :
  1000 <= 3600 <= 5000 /\
  min_voltage_register 53 1024 (PyFloat (float_literal 53 1024 3600 3)) = Val 146 /\
  (2053 <= 3600 -> 0 <= 146 <= 255 /\ 146 mod 256 = 146).
Proof.
  assert (Hk : 1000 <= 3600 <= 5000) by lia.
  split; [exact Hk | ].
  destruct (set_min_voltage_limit_millivolts 3600 (init_state [] []) Hk)
    as (r & Hr & _ & _ & Hbyte & _).
  assert (H146 : min_voltage_register 53 1024 (PyFloat (float_literal 53 1024 3600 3)) =
                 Val 146) by (vm_compute; reflexivity).
  split; [exact H146 | ].
  assert (Heq : r = 146) by congruence.
  subst r. exact Hbyte.
Defined.

(** ** The count on three bytes *)

(** X15.  The three bytes a pass writes hold the count itself exactly when
    the count lies between 0 and [2 ^ 24 - 1]; any other count reaches the
    chip as its remainder modulo [2 ^ 24] and nothing is raised.  On
    doubles at factor 1, 17179868 seconds give the largest count written
    in full, 16777215, and 17179870 seconds give 16777217, which is written
    with the same frames as a count of 1. *)
Theorem go_to_sleep_three_bytes (prec emax : Z) (seconds : pynum) (s : state)
        (ticks : Z) :
  fst (go_to_sleep prec emax 1 seconds s) = Val (PyInt ticks) ->
  (trace (snd (go_to_sleep prec emax 1 seconds s)) =
   trace s ++ [EvGcCollect] ++ calibrate_events ++ sleep_events ticks /\
   sleep_events ticks = sleep_events (ticks mod 2 ^ 24) /\
   (Z.land (Z.shiftr ticks 16) 0xFF * 65536 +
    Z.land (Z.shiftr ticks 8) 0xFF * 256 +
    Z.land ticks 0xFF = ticks <-> 0 <= ticks < 2 ^ 24)) /\
  sleep_ticks 53 1024 (PyInt 17179868) 1 = Val 16777215 /\
  sleep_ticks 53 1024 (PyInt 17179870) 1 = Val 16777217 /\
  sleep_events 16777217 = sleep_events 1.
Proof.
  intros Hrun.
  split; [ | repeat split; vm_compute; reflexivity].
  rewrite go_to_sleep_once in Hrun |- *.
  destruct (sleep_ticks prec emax seconds (held_factor s)) as [t | e];
    [ | discriminate].
  cbn [fst snd trace] in Hrun |- *. inversion Hrun. subst t.
  split; [reflexivity | ].
  split.
  - unfold sleep_events. rewrite !land_0xFF_mod, !Z.shiftr_div_pow2 by lia.
    change (2 ^ 8) with 256. change (2 ^ 16) with 65536.
    change (2 ^ 24) with 16777216.
    replace ((ticks mod 16777216) / 65536 mod 256) with (ticks / 65536 mod 256)
      by (Z.div_mod_to_equations; lia).
    replace ((ticks mod 16777216) / 256 mod 256) with (ticks / 256 mod 256)
      by (Z.div_mod_to_equations; lia).
    replace ((ticks mod 16777216) mod 256) with (ticks mod 256)
      by (Z.div_mod_to_equations; lia).
    reflexivity.
  - rewrite sleep_bytes_value. split.
    + intros Hmod. rewrite <- Hmod. apply Z.mod_pos_bound. lia.
    + intros Hsmall. apply Z.mod_small. exact Hsmall.
Qed.

Lemma go_to_sleep_three_bytes_witness :
  fst (go_to_sleep 53 1024 1 (PyInt 17179870) (init_state [] [])) =
  Val (PyInt 16777217) /\
  trace (snd (go_to_sleep 53 1024 1 (PyInt 17179870) (init_state [] []))) =
  [EvGcCollect] ++ calibrate_events ++ sleep_events 1.
Proof.
  assert (Hrun : fst (go_to_sleep 53 1024 1 (PyInt 17179870) (init_state [] [])) =
                 Val (PyInt 16777217)) by (vm_compute; reflexivity).
  split; [exact Hrun | ].
  destruct (go_to_sleep_three_bytes 53 1024 (PyInt 17179870) (init_state [] [])
              16777217 Hrun) as ((Htrace & _ & _) & _ & _ & Hsame).
  rewrite Htrace, Hsame. reflexivity.
Defined.

(** ** The loop over many passes *)

Lemma skipn_S_tl {A : Type} (n : nat) (l : list A) :
  skipn (S n) l = skipn n (tl l).
Proof. destruct l; [destruct n; reflexivity | reflexivity]. Qed.



Lemma tl_skipn {A : Type} (n : nat) (l : list A) :
  tl (skipn n l) = skipn n (tl l).
Proof.
  revert l. induction n as [| n IH]; intros l; [reflexivity | ].
  rewrite !skipn_S_tl. apply IH.
Qed.



(** A duration that is no finite float makes line 173 raise, whatever the
    factor. *)
Lemma sleep_ticks_not_finite (prec emax : Z) (seconds : pynum) (f : Q) :
  seconds = PyFloat S754_nan \/
  (exists sign, seconds = PyFloat (S754_infinity sign)) \/
  (exists z, seconds = PyInt z /\ float_of_int prec emax z = Exc OverflowError) ->
  exists e, sleep_ticks prec emax seconds f = Exc e.
Proof.
  unfold sleep_ticks, factor_number. cbn [py_mul obind].
  set (scale := SFmul prec emax _ _).
  set (half := float_literal prec emax 5 1).
  intros [-> | [[sign ->] | (z & -> & Hz)]].
  - cbn [py_div]. unfold float_div.
    destruct (is_zero scale); [eexists; reflexivity | ].
    cbn [obind py_add].
    destruct scale, half; cbn; eexists; reflexivity.
  - cbn [py_div]. unfold float_div.
    destruct (is_zero scale) eqn:Hzero; [eexists; reflexivity | ].
    cbn [obind py_add].
    destruct scale as [ | | | [|] ? ?]; try discriminate;
      destruct half as [ | [|] | | ? ? ?], sign; cbn; eexists; reflexivity.
  - cbn [py_div]. rewrite Hz. cbn [obind]. eexists; reflexivity.
Qed.

(** X23.  A NaN, an infinity, or an integer too large for a float as the
    duration makes [go_to_sleep] raise in its first pass: the exception
    comes after [gc.collect] and one calibration, and nothing is written to
    the sleep registers.  On doubles it is [ValueError] for a NaN and
    [OverflowError] for an infinity and for [10 ** 400]. *)
Theorem go_to_sleep_not_finite (prec emax : Z) (n : nat) (seconds : pynum) (s : state) :
  seconds = PyFloat S754_nan \/
  (exists sign, seconds = PyFloat (S754_infinity sign)) \/
  (exists z, seconds = PyInt z /\ float_of_int prec emax z = Exc OverflowError) ->
  (exists e,
      fst (go_to_sleep prec emax (S n) seconds s) = Exc e /\
      trace (snd (go_to_sleep prec emax (S n) seconds s)) =
      trace s ++ [EvGcCollect; EvBreak 20; EvWrite [0x55];
                  EvWrite [0x45; 0xFF; 0x04; 0x00];
                  EvUartDeinit; EvPulsesGet "P10" 50; EvUartInit 10000 "P10"]) /\
  sleep_ticks 53 1024 (PyFloat S754_nan) 1 =
  Exc (ValueError "cannot convert float NaN to integer") /\
  sleep_ticks 53 1024 (PyFloat (S754_infinity false)) 1 = Exc OverflowError /\
  sleep_ticks 53 1024 (PyInt (10 ^ 400)) 1 = Exc OverflowError.
Proof.
  intros Hbad.
  split; [ | repeat split; vm_compute; reflexivity].
  unfold go_to_sleep, gc_collect, emit. unfold bind at 1 2.
  rewrite !go_to_sleep_loop_S, !go_to_sleep_iter_run.
  destruct (sleep_ticks_not_finite prec emax seconds
              (held_factor
                 (mkState (clk_cal_factor s) (_pulses s) (trace s ++ [EvGcCollect])
                          (rx s) (captures s))) Hbad) as [e He].
  rewrite He. exists e. cbn [fst snd trace].
  split; [reflexivity | rewrite <- app_assoc; reflexivity].
Qed.

Lemma go_to_sleep_not_finite_witness :
  (exists z, PyInt (10 ^ 400) = PyInt z /\ float_of_int 53 1024 z = Exc OverflowError) /\
  exists e,
    fst (go_to_sleep 53 1024 3 (PyInt (10 ^ 400)) (init_state [] [])) = Exc e /\
    List.length (trace (snd (go_to_sleep 53 1024 3 (PyInt (10 ^ 400))
                               (init_state [] [])))) = 7%nat.
Proof.
  assert (Hbig : exists z, PyInt (10 ^ 400) = PyInt z /\
                           float_of_int 53 1024 z = Exc OverflowError).
  { exists (10 ^ 400). split; [reflexivity | vm_compute; reflexivity]. }
  split; [exact Hbig | ].
  destruct (proj1 (go_to_sleep_not_finite 53 1024 2 (PyInt (10 ^ 400))
                     (init_state [] []) (or_intror (or_intror Hbig))))
    as (e & He & Htrace).
  exists e. split; [exact He | rewrite Htrace; reflexivity].
Defined.

Lemma sleep_ticks_same_float (prec emax : Z) (seconds : pynum) (f f' : Q) :
  factor_number prec emax f = factor_number prec emax f' ->
  sleep_ticks prec emax seconds f = sleep_ticks prec emax seconds f'.
Proof. intros Hf. unfold sleep_ticks. rewrite Hf. reflexivity. Qed.

(** X17.  On doubles, once [seconds] holds a tick count of at most 3600
    and the calibrated factor is the float 1.0, a further pass shortens
    the count until it is 21 or less: a count of 22 or more comes out
    smaller (and at least 21), a count from 0 to 21 comes out unchanged. *)
Theorem go_to_sleep_pass_shrinks_count (t : Z) (s : state) :
  factor_number 53 1024 (clk_cal_factor (snd (calibrate s))) =
  factor_number 53 1024 1 ->
  0 <= t <= 3600 ->
  exists t' : Z,
    fst (go_to_sleep_iter 53 1024 (PyInt t) s) = Val t' /\
    (t <= 21 -> t' = t) /\
    (22 <= t -> 21 <= t' < t).
Proof.
  intros Hf Ht. rewrite calibrate_factor_eq in Hf. fold (held_factor s) in Hf.
  rewrite go_to_sleep_iter_run.
  rewrite (sleep_ticks_same_float 53 1024 (PyInt t) (held_factor s) 1 Hf).
  rewrite (sleep_ticks_hour t Ht). cbn [fst].
  exists ((1000 * t + 512) / 1024).
  split; [reflexivity | ].
  split; intros Hb.
  - symmetry. apply Z.div_unique with (r := 512 - 24 * t); lia.
  - split.
    + apply Z.div_le_lower_bound; lia.
    + apply Z.div_lt_upper_bound; lia.
Qed.

Lemma go_to_sleep_pass_shrinks_count_witness :
  factor_number 53 1024 (clk_cal_factor (snd (calibrate (init_state [] [])))) =
  factor_number 53 1024 1 /\
  0 <= 98 <= 3600 /\ 22 <= 98 /\
  fst (go_to_sleep_iter 53 1024 (PyInt 98) (init_state [] [])) = Val 96 /\
  21 <= 96 < 98.
Proof.
  assert (Hf : factor_number 53 1024
                 (clk_cal_factor (snd (calibrate (init_state [] [])))) =
               factor_number 53 1024 1) by reflexivity.
  assert (Ht : 0 <= 98 <= 3600) by lia.
  assert (Hb : 22 <= 98) by lia.
  split; [exact Hf | split; [exact Ht | split; [exact Hb | ]]].
  destruct (go_to_sleep_pass_shrinks_count 98 (init_state [] []) Hf Ht)
    as (t' & Hrun & _ & Hshrink).
  assert (H96 : fst (go_to_sleep_iter 53 1024 (PyInt 98) (init_state [] [])) = Val 96)
    by (vm_compute; reflexivity).
  assert (Ht' : t' = 96) by congruence.
  subst t'. split; [exact Hrun | exact (Hshrink Hb)].
Defined.

(** ** What every operation keeps *)

Section Keeps.

Variable R : state -> state -> Prop.
Hypothesis R_refl : forall s, R s s.
Hypothesis R_trans : forall s1 s2 s3, R s1 s2 -> R s2 s3 -> R s1 s3.

Lemma keeps_ret {A : Type} (a : A) : keeps R (ret a).
Proof. intros s. apply R_refl. Qed.

Lemma keeps_lift {A : Type} (o : outcome A) : keeps R (lift o).
Proof. intros s. apply R_refl. Qed.

Lemma keeps_bind {A B : Type} (m : M A) (k : A -> M B) :
  keeps R m -> (forall a, keeps R (k a)) -> keeps R (bind m k).
Proof.
  intros Hm Hk s. unfold bind. specialize (Hm s).
  destruct (m s) as [[a | e] s1]; cbn [snd] in *.
  - apply R_trans with s1; [exact Hm | apply Hk].
  - exact Hm.
Qed.

Lemma keeps_try_except (body handler : M unit) :
  keeps R body -> keeps R handler -> keeps R (try_except body handler).
Proof.
  intros Hb Hh s. unfold try_except. specialize (Hb s).
  destruct (body s) as [[u | e] s1]; cbn [snd] in *.
  - exact Hb.
  - apply R_trans with s1; [exact Hb | apply Hh].
Qed.

(** The operations that only call [_magic] and the pure helpers. *)
Hypothesis R_magic :
  forall address and_val or_val xor_val expected,
    keeps R (_magic address and_val or_val xor_val expected).

Lemma keeps_poke (address value : Z) : keeps R (poke address value).
Proof. apply keeps_bind; [apply R_magic | intros; apply keeps_ret]. Qed.

Lemma keeps_setbits (address mask : Z) : keeps R (setbits address mask).
Proof. apply keeps_bind; [apply R_magic | intros; apply keeps_ret]. Qed.

Lemma keeps_clearbits (address mask : Z) : keeps R (clearbits address mask).
Proof. apply keeps_bind; [apply R_magic | intros; apply keeps_ret]. Qed.

Lemma keeps_togglebits (address mask : Z) : keeps R (togglebits address mask).
Proof. apply keeps_bind; [apply R_magic | intros; apply keeps_ret]. Qed.

Lemma keeps_peek (address : Z) : keeps R (peek address).
Proof. apply keeps_bind; [apply R_magic | intros; apply keeps_lift]. Qed.

Lemma keeps_get_wake_status : keeps R get_wake_status.
Proof. apply keeps_bind; [apply keeps_peek | intros; apply keeps_ret]. Qed.

Lemma keeps_set_min_voltage_limit (prec emax : Z) (value : pynum) :
  keeps R (set_min_voltage_limit prec emax value).
Proof.
  apply keeps_bind; [apply keeps_lift | intros r]. apply keeps_poke.
Qed.

Lemma keeps_pin_ops (pins : pins_arg) :
  keeps R (enable_pullups pins) /\ keeps R (disable_pullups pins) /\
  keeps R (enable_wake_on_raise pins) /\ keeps R (disable_wake_on_raise pins) /\
  keeps R (enable_wake_on_fall pins) /\ keeps R (disable_wake_on_fall pins).
Proof.
  repeat split; (apply keeps_bind; [apply keeps_lift | intros mask]);
    apply keeps_setbits || apply keeps_clearbits.
Qed.

End Keeps.

(** *** Whole commands only *)

Lemma framed_app (tr1 tr2 : list event) :
  framed tr1 -> framed tr2 -> framed (tr1 ++ tr2).
Proof.
  intros H1 H2. induction H1 as [| e tr Hq _ IH | a b c d tr Hb _ IH | tr _ IH];
    cbn [app].
  - exact H2.
  - apply framed_quiet; assumption.
  - apply framed_command; assumption.
  - apply framed_refused; assumption.
Qed.

Lemma framed_writes (tr : list event) :
  framed tr ->
  forall data,
    In (EvWrite data) tr ->
    data = [0x55] \/ (List.length data = 4%nat /\ forallb is_byte data = true).
Proof.
  intros Hf. induction Hf as [| e tr Hq _ IH | a b c d tr Hb _ IH | tr _ IH];
    intros data Hin; cbn [In] in Hin.
  - destruct Hin.
  - destruct Hin as [He | Hin]; [subst e; discriminate | exact (IH data Hin)].
  - destruct Hin as [He | [He | [He | Hin]]]; try discriminate.
    + inversion He. left. reflexivity.
    + inversion He. subst data. right. split; [reflexivity | exact Hb].
    + exact (IH data Hin).
  - destruct Hin as [He | [He | Hin]]; try discriminate.
    + inversion He. left. reflexivity.
    + exact (IH data Hin).
Qed.

Lemma adds_framed_refl (s : state) : adds_framed s s.
Proof. exists []. split; [rewrite app_nil_r; reflexivity | apply framed_nil]. Qed.

Lemma adds_framed_trans (s1 s2 s3 : state) :
  adds_framed s1 s2 -> adds_framed s2 s3 -> adds_framed s1 s3.
Proof.
  intros (tr1 & H1 & Hf1) (tr2 & H2 & Hf2). exists (tr1 ++ tr2).
  split; [rewrite H2, H1, app_assoc; reflexivity | apply framed_app; assumption].
Qed.

Lemma adds_framed_emit (e : event) : quiet e = true -> keeps adds_framed (emit e).
Proof.
  intros Hq s. exists [e]. split; [reflexivity | ].
  apply framed_quiet; [exact Hq | apply framed_nil].
Qed.

Lemma adds_framed_uart_read (nbytes : option Z) : keeps adds_framed (uart_read nbytes).
Proof.
  intros s. exists [EvRead nbytes]. split; [apply uart_read_trace | ].
  apply framed_quiet; [reflexivity | apply framed_nil].
Qed.

Lemma adds_framed_magic (address and_val or_val xor_val : Z) (expected : option Z) :
  keeps adds_framed (_magic address and_val or_val xor_val expected).
Proof.
  intros s. destruct (is_byte address) eqn:Ha.
  - rewrite _magic_run by exact Ha.
    apply adds_framed_trans
      with (add_trace s (command address (Z.land and_val 0xFF) (Z.land or_val 0xFF)
                                 (Z.land xor_val 0xFF))).
    + eexists. split; [reflexivity | ].
      apply framed_command; [ | apply framed_nil].
      cbn [forallb]. rewrite Ha, !land_0xFF_is_byte. reflexivity.
    + unfold read_reply. destruct expected as [n |].
      * destruct (0 <? n); [apply adds_framed_uart_read | apply adds_framed_refl].
      * apply adds_framed_uart_read.
  - destruct (_magic_bad_address address and_val or_val xor_val expected s Ha)
      as [msg Hrun].
    rewrite Hrun. eexists. split; [reflexivity | ].
    apply framed_refused, framed_nil.
Qed.

Lemma adds_framed_calibrate : keeps adds_framed calibrate.
Proof.
  intros s. rewrite calibrate_run. exists calibrate_events.
  split; [reflexivity | ].
  apply framed_command; [reflexivity | ].
  repeat (apply framed_quiet; [reflexivity | ]). apply framed_nil.
Qed.

Ltac framed_bind :=
  apply keeps_bind; [exact adds_framed_trans | | ].

Ltac framed_op :=
  first [ apply keeps_poke | apply keeps_setbits | apply keeps_clearbits ];
  [exact adds_framed_refl | exact adds_framed_trans | exact adds_framed_magic].

Lemma adds_framed_go_to_sleep_iter (prec emax : Z) (seconds : pynum) :
  keeps adds_framed (go_to_sleep_iter prec emax seconds).
Proof.
  unfold go_to_sleep_iter.
  framed_bind.
  { apply keeps_try_except;
      [exact adds_framed_trans | apply adds_framed_calibrate
       | apply keeps_ret; exact adds_framed_refl]. }
  intros _. framed_bind; [intros s; apply adds_framed_refl | intros f].
  framed_bind; [apply keeps_lift; exact adds_framed_refl | intros ticks].
  framed_bind; [framed_op | intros _].
  framed_bind; [framed_op | intros _].
  framed_bind; [framed_op | intros _].
  framed_bind; [framed_op | intros _].
  apply keeps_ret. exact adds_framed_refl.
Qed.

Lemma adds_framed_go_to_sleep_loop (prec emax : Z) (n : nat) (seconds : pynum) :
  keeps adds_framed (go_to_sleep_loop prec emax n seconds).
Proof.
  revert seconds. induction n as [| n IH]; intros seconds; cbn [go_to_sleep_loop].
  - apply keeps_ret. exact adds_framed_refl.
  - apply keeps_bind;
      [exact adds_framed_trans | apply adds_framed_go_to_sleep_iter | ].
    intros t. apply IH.
Qed.

(** X18.  Every public operation, whether it returns or raises, extends
    the trace by whole commands only: a break of 20 bits, the byte 0x55,
    and then either a frame of exactly four bytes or, when the address is
    no byte, nothing.  So nothing but [0x55] and four-byte frames of
    values in [0, 255] is ever written to the UART. *)
Theorem operations_send_whole_commands (prec emax : Z) (n : nat)
        (address operand : Z) (pins : pins_arg) (value seconds : pynum) :
  (keeps adds_framed __init__ /\
   keeps adds_framed (poke address operand) /\
   keeps adds_framed (peek address) /\
   keeps adds_framed (setbits address operand) /\
   keeps adds_framed (clearbits address operand) /\
   keeps adds_framed (togglebits address operand)) /\
  (keeps adds_framed calibrate /\
   keeps adds_framed enable_auto_poweroff /\
   keeps adds_framed hw_reset /\
   keeps adds_framed get_wake_status /\
   keeps adds_framed (set_min_voltage_limit prec emax value) /\
   keeps adds_framed (go_to_sleep prec emax n seconds)) /\
  (keeps adds_framed (enable_pullups pins) /\
   keeps adds_framed (disable_pullups pins) /\
   keeps adds_framed (enable_wake_on_raise pins) /\
   keeps adds_framed (disable_wake_on_raise pins) /\
   keeps adds_framed (enable_wake_on_fall pins) /\
   keeps adds_framed (disable_wake_on_fall pins)) /\
  (forall tr data,
      framed tr ->
      In (EvWrite data) tr ->
      data = [0x55] \/ (List.length data = 4%nat /\ forallb is_byte data = true)).
Proof.
  pose proof adds_framed_refl as Hr.
  pose proof adds_framed_trans as Ht.
  pose proof adds_framed_magic as Hm.
  split; [ | split; [ | split]].
  - split.
    { unfold __init__.
      apply keeps_bind; [exact Ht | apply adds_framed_emit; reflexivity | intros _].
      apply keeps_bind; [exact Ht | | intros _].
      { intros s. exists []. split; [cbn; rewrite app_nil_r; reflexivity | ].
        apply framed_nil. }
      apply keeps_bind; [exact Ht | apply adds_framed_uart_read | intros _].
      apply keeps_clearbits; assumption. }
    split; [apply keeps_poke; assumption | ].
    split; [apply keeps_peek; assumption | ].
    split; [apply keeps_setbits; assumption | ].
    split; [apply keeps_clearbits; assumption | apply keeps_togglebits; assumption].
  - split; [apply adds_framed_calibrate | ].
    split; [apply keeps_setbits; assumption | ].
    split; [apply keeps_setbits; assumption | ].
    split; [apply keeps_get_wake_status; assumption | ].
    split; [apply keeps_set_min_voltage_limit; assumption | ].
    unfold go_to_sleep.
    apply keeps_bind; [exact Ht | apply adds_framed_emit; reflexivity | intros _].
    apply adds_framed_go_to_sleep_loop.
  - apply keeps_pin_ops; assumption.
  - intros tr data Hf. apply framed_writes. exact Hf.
Qed.

(** *** Calibration state is left alone *)

Lemma same_calibration_refl (s : state) : same_calibration s s.
Proof. repeat split. Qed.

Lemma same_calibration_trans (s1 s2 s3 : state) :
  same_calibration s1 s2 -> same_calibration s2 s3 -> same_calibration s1 s3.
Proof.
  intros (Hf1 & Hp1 & Hc1) (Hf2 & Hp2 & Hc2).
  repeat split; congruence.
Qed.

Lemma same_calibration_magic (address and_val or_val xor_val : Z)
      (expected : option Z) :
  keeps same_calibration (_magic address and_val or_val xor_val expected).
Proof.
  intros s. destruct (is_byte address) eqn:Ha.
  - rewrite _magic_run by exact Ha. unfold read_reply, uart_read, ret.
    destruct expected as [n |]; [destruct (0 <? n) | ];
      try destruct (next_rx _); repeat split.
  - destruct (_magic_bad_address address and_val or_val xor_val expected s Ha)
      as [msg Hrun].
    rewrite Hrun. repeat split.
Qed.

(** X19.  The register operations, the pin operations, the wake-status
    read, the battery limit, the reset and the auto-power-off switch never
    touch what calibration owns: the factor, the stored pulses and the
    pending captures are the same afterwards, also when the operation
    raises. *)
Theorem operations_keep_calibration (prec emax : Z) (address operand : Z)
        (pins : pins_arg) (value : pynum) :
  (keeps same_calibration (poke address operand) /\
   keeps same_calibration (peek address) /\
   keeps same_calibration (setbits address operand) /\
   keeps same_calibration (clearbits address operand) /\
   keeps same_calibration (togglebits address operand)) /\
  (keeps same_calibration enable_auto_poweroff /\
   keeps same_calibration hw_reset /\
   keeps same_calibration get_wake_status /\
   keeps same_calibration (set_min_voltage_limit prec emax value)) /\
  (keeps same_calibration (enable_pullups pins) /\
   keeps same_calibration (disable_pullups pins) /\
   keeps same_calibration (enable_wake_on_raise pins) /\
   keeps same_calibration (disable_wake_on_raise pins) /\
   keeps same_calibration (enable_wake_on_fall pins) /\
   keeps same_calibration (disable_wake_on_fall pins)).
Proof.
  pose proof same_calibration_refl as Hr.
  pose proof same_calibration_trans as Ht.
  pose proof same_calibration_magic as Hm.
  split; [ | split].
  - split; [apply keeps_poke; assumption | ].
    split; [apply keeps_peek; assumption | ].
    split; [apply keeps_setbits; assumption | ].
    split; [apply keeps_clearbits; assumption | apply keeps_togglebits; assumption].
  - split; [apply keeps_setbits; assumption | ].
    split; [apply keeps_setbits; assumption | ].
    split; [apply keeps_get_wake_status; assumption | ].
    apply keeps_set_min_voltage_limit; assumption.
  - apply keeps_pin_ops; assumption.
Qed.

(** ** Construction and the control register *)

(** X20.  Constructing the driver never raises.  It opens the UART at
    10000 baud on P10, sets the factor to 1 whatever it was, reads and
    drops what was pending, and sends one frame, [0x0E, 0x7F, 0x00, 0x00]:
    bit 7 of the option register is cleared and no other bit is named. *)
Theorem init_clears_option_bit7 (s : state) :
  __init__ s =
  (Val tt,
   mkState 1 (_pulses s)
           (trace s ++ [EvUartInit 10000 "P10"; EvRead None;
                        EvBreak 20; EvWrite [0x55];
                        EvWrite [0x0E; 0x7F; 0x00; 0x00]; EvRead None])
           (tl (tl (rx s))) (captures s)).
Proof.
  unfold __init__, uart_init, emit, set_clk_cal_factor, uart_read, next_rx.
  unfold bind at 1 2 3. cbn [clk_cal_factor _pulses trace rx captures].
  destruct (rx s) as [| r rest]; rewrite clearbits_state by reflexivity;
    cbn [clk_cal_factor _pulses trace rx captures tl];
    rewrite <- !app_assoc; reflexivity.
Qed.


(** ** The two names of a pin *)

Lemma _add_to_pin_mask_module_name (mask : Z) (pin : string) :
  _add_to_pin_mask mask (module_name pin) = _add_to_pin_mask mask pin.
Proof.
  unfold module_name.
  destruct (String.eqb_spec pin "G17") as [-> | _]; [reflexivity | ].
  destruct (String.eqb_spec pin "G31") as [-> | _]; [reflexivity | ].
  destruct (String.eqb_spec pin "G30") as [-> | _]; reflexivity.
Qed.

Lemma add_pins_module_name (l : list string) (mask : Z) :
  add_pins mask (map module_name l) = add_pins mask l.
Proof.
  revert mask. induction l as [| pin l IH]; intros mask; cbn [map add_pins].
  - reflexivity.
  - rewrite _add_to_pin_mask_module_name.
    destruct (_add_to_pin_mask mask pin) as [mask' | e]; cbn [obind];
      [apply IH | reflexivity].
Qed.

(** X22.  G17, G31 and G30 are second names of P10, P17 and P18: writing
    any of them by its other name changes neither the mask nor, when some
    identifier is invalid, the error that is raised, so every pin
    operation behaves the same under either naming. *)
Theorem pin_names_are_aliases (pins : pins_arg) (s : state) :
  _create_pin_mask (module_names pins) = _create_pin_mask pins /\
  enable_pullups (module_names pins) s = enable_pullups pins s /\
  disable_pullups (module_names pins) s = disable_pullups pins s /\
  enable_wake_on_raise (module_names pins) s = enable_wake_on_raise pins s /\
  disable_wake_on_raise (module_names pins) s = disable_wake_on_raise pins s /\
  enable_wake_on_fall (module_names pins) s = enable_wake_on_fall pins s /\
  disable_wake_on_fall (module_names pins) s = disable_wake_on_fall pins s.
Proof.
  assert (Hmask : _create_pin_mask (module_names pins) = _create_pin_mask pins).
  { unfold _create_pin_mask. destruct pins as [pin | l]; cbn [module_names].
    - rewrite _add_to_pin_mask_module_name. reflexivity.
    - rewrite add_pins_module_name. reflexivity. }
  unfold enable_pullups, disable_pullups, enable_wake_on_raise,
    disable_wake_on_raise, enable_wake_on_fall, disable_wake_on_fall.
  rewrite Hmask. repeat split; reflexivity.
Qed.
